(** * Board Outline Generator: a shallow embedding and its properties

    The development follows [board_outline_generator.py], a KiCAD action
    plugin that draws a (rounded) rectangular board outline on the Edge.Cuts
    layer and places mounting-hole footprints.

    Numbers.  The plugin computes with Python floats.  They are idealised
    here as real numbers: arithmetic is exact.  Integer nanometres, the unit
    of the host, are [Z].  Two things follow.  The code rounds the product
    [mm * 1e6] before it truncates, so a coordinate it stores can be one
    nanometre off the one computed here; where a property places a stored
    point it therefore also says so within 2 nm of the millimetre value
    ([nm_near]), and the property of the three points of an arc is proved for
    every rounding of the products below 0.001 nm.  And the values of [float]
    that are not numbers (NaN, the infinities) exist only in the second
    embedding of the validation, [Float.get_parameters], which agrees with
    the first on numbers.

    Texts.  A text control is known by what [float] makes of its content: a
    value, or a [ValueError].

    State.  The board is passed explicitly: a function that adds to the board
    takes it and returns it with the new items appended. *)

From Stdlib Require Import Reals Lra Lia ZArith List String Bool DecimalString.
From Stdlib Require Import DecimalNat.
Import ListNotations.
Open Scope R_scope.

(** ** Python built-ins used by the plugin *)

(** [int(x)] on a float: truncation toward zero. *)
Definition int (x : R) : Z :=
  if Rle_dec 0 x then Int_part x else (- Int_part (- x))%Z.

(** [math.radians]. *)
Definition radians (deg : R) : R := deg * PI / 180.

(** Comparisons as the booleans the [if] statements test. *)
Definition Rleb (x y : R) : bool := if Rle_dec x y then true else false.
Definition Rltb (x y : R) : bool := if Rlt_dec x y then true else false.
Definition Rgtb (x y : R) : bool := if Rgt_dec x y then true else false.
Definition Reqb (x y : R) : bool := if Req_dec_T x y then true else false.

(** [f"H{n}"]. *)
Definition H_reference (n : nat) : string :=
  ("H" ++ NilEmpty.string_of_uint (Nat.to_uint n))%string.

(** ** The host: the part of [pcbnew] the plugin calls

    Objects of the host are records; a setter is a functional update.  The
    board keeps the items handed to [Add] in the order they were added. *)
Module pcbnew.

Record VECTOR2I := { vx : Z; vy : Z }.

Inductive SHAPE_T := SHAPE_T_SEGMENT | SHAPE_T_ARC.

Record PCB_SHAPE := {
  GetShape : SHAPE_T;
  GetLayer : Z;
  GetStart : VECTOR2I;
  GetArcMid : VECTOR2I;
  GetEnd : VECTOR2I;
  GetWidth : Z
}.

Definition origin : VECTOR2I := {| vx := 0; vy := 0 |}.

(** [pcbnew.PCB_SHAPE(board)], before any setter is called. *)
Definition new_PCB_SHAPE : PCB_SHAPE :=
  {| GetShape := SHAPE_T_SEGMENT; GetLayer := 0%Z; GetStart := origin;
     GetArcMid := origin; GetEnd := origin; GetWidth := 0%Z |}.

Definition SetShape (t : SHAPE_T) (s : PCB_SHAPE) : PCB_SHAPE :=
  {| GetShape := t; GetLayer := GetLayer s; GetStart := GetStart s;
     GetArcMid := GetArcMid s; GetEnd := GetEnd s; GetWidth := GetWidth s |}.
Definition SetLayer (l : Z) (s : PCB_SHAPE) : PCB_SHAPE :=
  {| GetShape := GetShape s; GetLayer := l; GetStart := GetStart s;
     GetArcMid := GetArcMid s; GetEnd := GetEnd s; GetWidth := GetWidth s |}.
Definition SetStart (p : VECTOR2I) (s : PCB_SHAPE) : PCB_SHAPE :=
  {| GetShape := GetShape s; GetLayer := GetLayer s; GetStart := p;
     GetArcMid := GetArcMid s; GetEnd := GetEnd s; GetWidth := GetWidth s |}.
Definition SetEnd (p : VECTOR2I) (s : PCB_SHAPE) : PCB_SHAPE :=
  {| GetShape := GetShape s; GetLayer := GetLayer s; GetStart := GetStart s;
     GetArcMid := GetArcMid s; GetEnd := p; GetWidth := GetWidth s |}.
Definition SetArcGeometry (p m q : VECTOR2I) (s : PCB_SHAPE) : PCB_SHAPE :=
  {| GetShape := GetShape s; GetLayer := GetLayer s; GetStart := p;
     GetArcMid := m; GetEnd := q; GetWidth := GetWidth s |}.
Definition SetWidth (w : Z) (s : PCB_SHAPE) : PCB_SHAPE :=
  {| GetShape := GetShape s; GetLayer := GetLayer s; GetStart := GetStart s;
     GetArcMid := GetArcMid s; GetEnd := GetEnd s; GetWidth := w |}.

(** Pads.  [SetShape], [GetShape], [SetPosition] and [GetPosition] exist on
    several classes of the host; on a pad they are [SetPadShape],
    [GetPadShape], [SetPadPosition] and [GetPadPosition] here. *)
Inductive PAD_SHAPE := PAD_SHAPE_CIRCLE | PAD_SHAPE_RECT | PAD_SHAPE_OVAL.
Inductive PAD_ATTRIB := PAD_ATTRIB_PTH | PAD_ATTRIB_SMD | PAD_ATTRIB_NPTH.
Inductive PAD_DRILL_SHAPE := PAD_DRILL_SHAPE_CIRCLE | PAD_DRILL_SHAPE_OBLONG.

Record PAD := {
  GetNumber : string;
  GetPadShape : PAD_SHAPE;
  GetAttribute : PAD_ATTRIB;
  GetDrillShape : PAD_DRILL_SHAPE;
  GetDrillSize : VECTOR2I;
  GetSize : VECTOR2I;
  GetPadPosition : VECTOR2I;
  GetLocalSolderMaskMargin : Z
}.

(** [pcbnew.PAD(footprint)], before any setter is called. *)
Definition new_PAD : PAD :=
  {| GetNumber := EmptyString; GetPadShape := PAD_SHAPE_CIRCLE;
     GetAttribute := PAD_ATTRIB_PTH; GetDrillShape := PAD_DRILL_SHAPE_CIRCLE;
     GetDrillSize := origin; GetSize := origin; GetPadPosition := origin;
     GetLocalSolderMaskMargin := 0%Z |}.

Definition SetNumber (n : string) (p : PAD) : PAD :=
  {| GetNumber := n; GetPadShape := GetPadShape p;
     GetAttribute := GetAttribute p; GetDrillShape := GetDrillShape p;
     GetDrillSize := GetDrillSize p; GetSize := GetSize p;
     GetPadPosition := GetPadPosition p;
     GetLocalSolderMaskMargin := GetLocalSolderMaskMargin p |}.
Definition SetPadShape (s : PAD_SHAPE) (p : PAD) : PAD :=
  {| GetNumber := GetNumber p; GetPadShape := s;
     GetAttribute := GetAttribute p; GetDrillShape := GetDrillShape p;
     GetDrillSize := GetDrillSize p; GetSize := GetSize p;
     GetPadPosition := GetPadPosition p;
     GetLocalSolderMaskMargin := GetLocalSolderMaskMargin p |}.
Definition SetAttribute (a : PAD_ATTRIB) (p : PAD) : PAD :=
  {| GetNumber := GetNumber p; GetPadShape := GetPadShape p;
     GetAttribute := a; GetDrillShape := GetDrillShape p;
     GetDrillSize := GetDrillSize p; GetSize := GetSize p;
     GetPadPosition := GetPadPosition p;
     GetLocalSolderMaskMargin := GetLocalSolderMaskMargin p |}.
Definition SetDrillShape (d : PAD_DRILL_SHAPE) (p : PAD) : PAD :=
  {| GetNumber := GetNumber p; GetPadShape := GetPadShape p;
     GetAttribute := GetAttribute p; GetDrillShape := d;
     GetDrillSize := GetDrillSize p; GetSize := GetSize p;
     GetPadPosition := GetPadPosition p;
     GetLocalSolderMaskMargin := GetLocalSolderMaskMargin p |}.
Definition SetDrillSize (v : VECTOR2I) (p : PAD) : PAD :=
  {| GetNumber := GetNumber p; GetPadShape := GetPadShape p;
     GetAttribute := GetAttribute p; GetDrillShape := GetDrillShape p;
     GetDrillSize := v; GetSize := GetSize p;
     GetPadPosition := GetPadPosition p;
     GetLocalSolderMaskMargin := GetLocalSolderMaskMargin p |}.
Definition SetSize (v : VECTOR2I) (p : PAD) : PAD :=
  {| GetNumber := GetNumber p; GetPadShape := GetPadShape p;
     GetAttribute := GetAttribute p; GetDrillShape := GetDrillShape p;
     GetDrillSize := GetDrillSize p; GetSize := v;
     GetPadPosition := GetPadPosition p;
     GetLocalSolderMaskMargin := GetLocalSolderMaskMargin p |}.
Definition SetPadPosition (v : VECTOR2I) (p : PAD) : PAD :=
  {| GetNumber := GetNumber p; GetPadShape := GetPadShape p;
     GetAttribute := GetAttribute p; GetDrillShape := GetDrillShape p;
     GetDrillSize := GetDrillSize p; GetSize := GetSize p;
     GetPadPosition := v;
     GetLocalSolderMaskMargin := GetLocalSolderMaskMargin p |}.
Definition SetLocalSolderMaskMargin (m : Z) (p : PAD) : PAD :=
  {| GetNumber := GetNumber p; GetPadShape := GetPadShape p;
     GetAttribute := GetAttribute p; GetDrillShape := GetDrillShape p;
     GetDrillSize := GetDrillSize p; GetSize := GetSize p;
     GetPadPosition := GetPadPosition p;
     GetLocalSolderMaskMargin := m |}.

Record FOOTPRINT := {
  GetReference : string;
  GetValue : string;
  Pads : list PAD;
  GetPosition : VECTOR2I
}.

(** [pcbnew.FOOTPRINT(board)], before any setter is called. *)
Definition new_FOOTPRINT : FOOTPRINT :=
  {| GetReference := EmptyString; GetValue := EmptyString; Pads := [];
     GetPosition := origin |}.

Definition SetReference (r : string) (f : FOOTPRINT) : FOOTPRINT :=
  {| GetReference := r; GetValue := GetValue f; Pads := Pads f;
     GetPosition := GetPosition f |}.
Definition SetValue (v : string) (f : FOOTPRINT) : FOOTPRINT :=
  {| GetReference := GetReference f; GetValue := v; Pads := Pads f;
     GetPosition := GetPosition f |}.
Definition AddPad (p : PAD) (f : FOOTPRINT) : FOOTPRINT :=
  {| GetReference := GetReference f; GetValue := GetValue f;
     Pads := Pads f ++ [p]; GetPosition := GetPosition f |}.
Definition SetPosition (v : VECTOR2I) (f : FOOTPRINT) : FOOTPRINT :=
  {| GetReference := GetReference f; GetValue := GetValue f;
     Pads := Pads f; GetPosition := v |}.

Inductive BOARD_ITEM :=
| Drawing (s : PCB_SHAPE)
| Footprint (f : FOOTPRINT).

Record BOARD := {
  GetLayerID : string -> Z;
  Items : list BOARD_ITEM
}.

(** [board.Add(item)]. *)
Definition Add (item : BOARD_ITEM) (board : BOARD) : BOARD :=
  {| GetLayerID := GetLayerID board; Items := Items board ++ [item] |}.

(** [board.GetFootprints()]. *)
Fixpoint footprints_of (items : list BOARD_ITEM) : list FOOTPRINT :=
  match items with
  | [] => []
  | Footprint f :: rest => f :: footprints_of rest
  | Drawing _ :: rest => footprints_of rest
  end.

Definition GetFootprints (board : BOARD) : list FOOTPRINT :=
  footprints_of (Items board).

(** The drawings of a board, in the order they were added. *)
Fixpoint drawings_of (items : list BOARD_ITEM) : list PCB_SHAPE :=
  match items with
  | [] => []
  | Drawing s :: rest => s :: drawings_of rest
  | Footprint _ :: rest => drawings_of rest
  end.

Definition Drawings (board : BOARD) : list PCB_SHAPE :=
  drawings_of (Items board).

End pcbnew.
Import pcbnew.

(** ** Module constants *)

Definition BOARD_OFFSET_X : R := 25.0.
Definition BOARD_OFFSET_Y : R := 25.0.

(** The local helper [mm_to_nm] of both [create_board_outline] and
    [create_mounting_hole]. *)
Definition mm_to_nm (mm : R) : Z := int (mm * 1e6).

Definition point : Type := (R * R)%type.

(** [pcbnew.VECTOR2I(mm_to_nm(p[0]), mm_to_nm(p[1]))]. *)
Definition to_VECTOR2I (p : point) : VECTOR2I :=
  {| vx := mm_to_nm (fst p); vy := mm_to_nm (snd p) |}.

(** ** [create_board_outline] *)

(** One straight piece of the outline: the body of both [for] loops. *)
Definition outline_segment (edge_cuts : Z) (a b : point) : PCB_SHAPE :=
  let line := new_PCB_SHAPE in
  let line := SetShape SHAPE_T_SEGMENT line in
  let line := SetLayer edge_cuts line in
  let line := SetStart (to_VECTOR2I a) line in
  let line := SetEnd (to_VECTOR2I b) line in
  SetWidth (mm_to_nm 0.1) line.

(** The three points of the nested [create_arc], in millimetres. *)
Definition arc_points (r : R) (center : point)
    (start_angle_deg end_angle_deg : R) : point * point * point :=
  let '(cx, cy) := center in
  let start_angle := radians start_angle_deg in
  let end_angle := radians end_angle_deg in
  let mid_angle := (start_angle + end_angle) / 2 in
  let start_pt := (cx + r * cos start_angle, cy - r * sin start_angle) in
  let mid_pt := (cx + r * cos mid_angle, cy - r * sin mid_angle) in
  let end_pt := (cx + r * cos end_angle, cy - r * sin end_angle) in
  (start_pt, mid_pt, end_pt).

(** The shape the nested [create_arc] builds. *)
Definition arc_shape (edge_cuts : Z) (r : R) (center : point)
    (start_angle_deg end_angle_deg : R) : PCB_SHAPE :=
  let '(start_pt, mid_pt, end_pt) :=
    arc_points r center start_angle_deg end_angle_deg in
  let arc := new_PCB_SHAPE in
  let arc := SetShape SHAPE_T_ARC arc in
  let arc := SetLayer edge_cuts arc in
  let arc :=
    SetArcGeometry (to_VECTOR2I start_pt) (to_VECTOR2I mid_pt)
      (to_VECTOR2I end_pt) arc in
  SetWidth (mm_to_nm 0.1) arc.

(** The nested [create_arc]; [r], [edge_cuts] and [board] are the variables
    it closes over. *)
Definition create_arc (edge_cuts : Z) (r : R) (center : point)
    (start_angle_deg end_angle_deg : R) (board : BOARD) : BOARD :=
  Add (Drawing (arc_shape edge_cuts r center start_angle_deg end_angle_deg))
    board.

(** The four corner centres of the rounded branch. *)
Definition corner_centers (w h r : R) : list point :=
  let ox := BOARD_OFFSET_X in
  let oy := BOARD_OFFSET_Y in
  [ (ox + r, oy + r);
    (ox + w - r, oy + r);
    (ox + w - r, oy + h - r);
    (ox + r, oy + h - r) ].

(** The four straight edges of the rounded branch. *)
Definition edge_lines (w h r : R) : list (point * point) :=
  let ox := BOARD_OFFSET_X in
  let oy := BOARD_OFFSET_Y in
  [ ((ox + r, oy), (ox + w - r, oy));
    ((ox + w, oy + r), (ox + w, oy + h - r));
    ((ox + w - r, oy + h), (ox + r, oy + h));
    ((ox, oy + h - r), (ox, oy + r)) ].

(** The closed polygon of the plain branch. *)
Definition rectangle_points (w h : R) : list point :=
  let ox := BOARD_OFFSET_X in
  let oy := BOARD_OFFSET_Y in
  [ (ox, oy); (ox + w, oy); (ox + w, oy + h); (ox, oy + h); (ox, oy) ].

Definition create_board_outline (board : BOARD) (width height corner_radius : R)
    : BOARD :=
  let edge_cuts := GetLayerID board "Edge.Cuts"%string in
  let r := corner_radius in
  let w := width in
  let h := height in
  if Reqb r 0 then
    let points := rectangle_points w h in
    fold_left
      (fun board i =>
         Add (Drawing (outline_segment edge_cuts
                         (nth i points (0, 0)) (nth (i + 1) points (0, 0))))
           board)
      (seq 0 (List.length points - 1)) board
  else
    let corners := corner_centers w h r in
    let lines := edge_lines w h r in
    let board :=
      fold_left
        (fun board '(start, end_) =>
           Add (Drawing (outline_segment edge_cuts start end_)) board)
        lines board in
    let board := create_arc edge_cuts r (nth 0 corners (0, 0)) 90 180 board in
    let board := create_arc edge_cuts r (nth 1 corners (0, 0)) 0 90 board in
    let board := create_arc edge_cuts r (nth 2 corners (0, 0)) 270 360 board in
    create_arc edge_cuts r (nth 3 corners (0, 0)) 180 270 board.

(** ** [create_mounting_hole] *)

(** The pad of a mounting hole.  [pad_diameter] is computed as in the source
    and, as in the source, not referred to again. *)
Definition mounting_hole_pad (hole_diameter annular_ring : R) : PAD :=
  let pad_diameter := hole_diameter + (2 * annular_ring) in
  let pad := new_PAD in
  let pad := SetNumber "1"%string pad in
  let pad := SetPadShape PAD_SHAPE_CIRCLE pad in
  let pad := SetAttribute PAD_ATTRIB_NPTH pad in
  let pad := SetDrillShape PAD_DRILL_SHAPE_CIRCLE pad in
  let pad :=
    SetDrillSize
      {| vx := mm_to_nm hole_diameter; vy := mm_to_nm hole_diameter |} pad in
  let pad :=
    SetSize {| vx := mm_to_nm hole_diameter; vy := mm_to_nm hole_diameter |}
      pad in
  let pad := SetPadPosition {| vx := 0; vy := 0 |} pad in
  SetLocalSolderMaskMargin (mm_to_nm annular_ring) pad.

(** The number of footprints already on the board whose reference starts
    with [H]. *)
Definition count_H (board : BOARD) : nat :=
  List.length
    (filter (fun f => String.prefix "H" (GetReference f))
       (GetFootprints board)).

(** Returns the board after [board.Add(footprint)] and the footprint. *)
Definition create_mounting_hole (board : BOARD) (x y hole_diameter annular_ring : R)
    : BOARD * FOOTPRINT :=
  let footprint := new_FOOTPRINT in
  let footprint := SetReference (H_reference (count_H board + 1)) footprint in
  let footprint := SetValue "MountingHole"%string footprint in
  let pad := mounting_hole_pad hole_diameter annular_ring in
  let footprint := AddPad pad footprint in
  let sheet_x := BOARD_OFFSET_X + x in
  let sheet_y := BOARD_OFFSET_Y + y in
  let footprint :=
    SetPosition {| vx := mm_to_nm sheet_x; vy := mm_to_nm sheet_y |}
      footprint in
  (Add (Footprint footprint) board, footprint).

(** ** The dialog *)

(** What the plugin raises and catches inside [get_parameters]. *)
Inductive ValueError :=
| CouldNotConvert
| InvalidPosition (hole : nat)
| DimensionsNotPositive
| RadiusNegative
| RadiusTooLarge
| HoleDiameterNotPositive.

(** Code that either raises a [ValueError] or returns. *)
Definition raising (A : Type) : Type := (ValueError + A)%type.
Definition ret {A} (a : A) : raising A := inr a.
Definition raise {A} (e : ValueError) : raising A := inl e.
Definition bind {A B} (c : raising A) (k : A -> raising B) : raising B :=
  match c with
  | inl e => inl e
  | inr a => k a
  end.

Notation "x <- c ;; k" := (bind c (fun x => k))
  (at level 61, c at next level, right associativity).

(** The content of a text control, seen through Python's [float]: [Some x]
    when [float(ctrl.GetValue())] returns [x], [None] when it raises
    [ValueError]. *)
Definition TextCtrl : Type := option R.

Definition float (ctrl : TextCtrl) : raising R :=
  match ctrl with
  | Some x => ret x
  | None => raise CouldNotConvert
  end.

Record MountingHoleEntry := {
  index : nat;
  x_ctrl : TextCtrl;
  y_ctrl : TextCtrl
}.

(** [MountingHoleEntry.get_position]: the pair, or [None] when either text
    does not convert. *)
Definition get_position (entry : MountingHoleEntry) : option point :=
  match (x <- float (x_ctrl entry) ;;
         y <- float (y_ctrl entry) ;;
         ret (x, y)) with
  | inr pos => Some pos
  | inl _ => None
  end.

Record BoardOutlineDialog := {
  width_ctrl : TextCtrl;
  height_ctrl : TextCtrl;
  radius_ctrl : TextCtrl;
  hole_diameter_ctrl : TextCtrl;
  annular_ring_ctrl : TextCtrl;
  hole_entries : list MountingHoleEntry
}.

(** The dictionary [params]. *)
Record Params := {
  width : R;
  height : R;
  corner_radius : R;
  hole_diameter : R;
  annular_ring : R;
  hole_positions : list point
}.

(** The loop over [self.hole_entries]; [positions] is the list being
    appended to. *)
Fixpoint collect_positions (entries : list MountingHoleEntry)
    (positions : list point) : raising (list point) :=
  match entries with
  | [] => ret positions
  | entry :: rest =>
      match get_position entry with
      | None => raise (InvalidPosition (index entry + 1))
      | Some pos => collect_positions rest (positions ++ [pos])
      end
  end.

(** The [try] block of [get_parameters]. *)
Definition get_parameters_try (self : BoardOutlineDialog) : raising Params :=
  w <- float (width_ctrl self) ;;
  h <- float (height_ctrl self) ;;
  r <- float (radius_ctrl self) ;;
  d <- float (hole_diameter_ctrl self) ;;
  a <- float (annular_ring_ctrl self) ;;
  positions <- collect_positions (hole_entries self) [] ;;
  if Rleb w 0 || Rleb h 0 then raise DimensionsNotPositive
  else if Rltb r 0 then raise RadiusNegative
  else if Rgtb r (Rmin w h / 2) then raise RadiusTooLarge
  else if Rleb d 0 then raise HoleDiameterNotPositive
  else ret {| width := w; height := h; corner_radius := r;
              hole_diameter := d; annular_ring := a;
              hole_positions := positions |}.

(** [get_parameters]: the parameters, or [None] once the error has been
    shown in a message box. *)
Definition get_parameters (self : BoardOutlineDialog) : option Params :=
  match get_parameters_try self with
  | inr params => Some params
  | inl _ => None
  end.

(** ** The plugin *)

Module wx.
Inductive ModalResult := ID_OK | ID_CANCEL.
End wx.

(** The loop over [params['hole_positions']] of [Run]. *)
Definition create_mounting_holes (board : BOARD) (params : Params) : BOARD :=
  fold_left
    (fun board '(x, y) =>
       fst (create_mounting_hole board x y
              (hole_diameter params) (annular_ring params)))
    (hole_positions params) board.

(** [BoardOutlinePlugin.Run]: [board] is what [pcbnew.GetBoard()] returns,
    [dlg] the dialog as the user left it and [answer] what [ShowModal]
    returned.  The result is the board afterwards; refreshing the view and the
    message boxes do not touch it. *)
Definition Run (board : BOARD) (dlg : BoardOutlineDialog)
    (answer : wx.ModalResult) : BOARD :=
  match answer with
  | wx.ID_OK =>
      match get_parameters dlg with
      | Some params =>
          let board :=
            create_board_outline board
              (width params) (height params) (corner_radius params) in
          create_mounting_holes board params
      | None => board
      end
  | wx.ID_CANCEL => board
  end.

(** ** The rest of the dialog: presets, hole entries, corner holes *)

(** [CLEARANCE_HOLES]: clearance hole diameters in millimetres, in the order
    the dictionary lists them. *)
Definition CLEARANCE_HOLES : list (string * R) :=
  [ ("M2", 2.4); ("M2.5", 2.9); ("M3", 3.4); ("M4", 4.5); ("M5", 5.5);
    ("M6", 6.6); ("#4-40", 3.3); ("#6-32", 3.8); ("#8-32", 4.5);
    ("#10-32", 5.1); ("1/4-20", 6.6); ("5/16-18", 8.4) ]%string.

(** [d[key]] when [key in d], for a dictionary kept as the list of its
    items. *)
Fixpoint dict_get (key : string) (d : list (string * R)) : option R :=
  match d with
  | [] => None
  | (k, v) :: rest => if String.eqb key k then Some v else dict_get key rest
  end.

(** [list(d.keys())]. *)
Definition dict_keys (d : list (string * R)) : list string := map fst d.

(** The choices of the preset selector. *)
Definition preset_choices : list string :=
  "Custom"%string :: dict_keys CLEARANCE_HOLES.

(** The dialog with the two controls that only its event handlers read:
    [controls] are the texts and hole entries of [get_parameters],
    [preset_choice] is what [GetStringSelection] returns and [inset_ctrl] the
    corner inset. *)
Record DialogWindow := {
  controls : BoardOutlineDialog;
  preset_choice : string;
  inset_ctrl : TextCtrl
}.

(** [ctrl.SetValue(str(x))] for a number [x]: the text that [float] reads back
    as [x]. *)
Definition SetValue_str (x : R) : TextCtrl := Some x.

Definition set_hole_diameter_ctrl (t : TextCtrl) (dlg : BoardOutlineDialog)
    : BoardOutlineDialog :=
  {| width_ctrl := width_ctrl dlg; height_ctrl := height_ctrl dlg;
     radius_ctrl := radius_ctrl dlg; hole_diameter_ctrl := t;
     annular_ring_ctrl := annular_ring_ctrl dlg;
     hole_entries := hole_entries dlg |}.

Definition set_hole_entries (entries : list MountingHoleEntry)
    (dlg : BoardOutlineDialog) : BoardOutlineDialog :=
  {| width_ctrl := width_ctrl dlg; height_ctrl := height_ctrl dlg;
     radius_ctrl := radius_ctrl dlg;
     hole_diameter_ctrl := hole_diameter_ctrl dlg;
     annular_ring_ctrl := annular_ring_ctrl dlg;
     hole_entries := entries |}.

Definition set_controls (dlg : BoardOutlineDialog) (self : DialogWindow)
    : DialogWindow :=
  {| controls := dlg; preset_choice := preset_choice self;
     inset_ctrl := inset_ctrl self |}.

(** The dialog as [__init__] and [_build_ui] leave it. *)
Definition new_BoardOutlineDialog : DialogWindow :=
  {| controls :=
       {| width_ctrl := Some 100; height_ctrl := Some 80;
          radius_ctrl := Some 3; hole_diameter_ctrl := Some 3.4;
          annular_ring_ctrl := Some 1.0; hole_entries := [] |};
     preset_choice := "Custom"%string;
     inset_ctrl := Some 5.0 |}.

(** [_on_preset_changed]. *)
Definition _on_preset_changed (self : DialogWindow) : DialogWindow :=
  let selection := preset_choice self in
  match dict_get selection CLEARANCE_HOLES with
  | Some diameter =>
      set_controls
        (set_hole_diameter_ctrl (SetValue_str diameter) (controls self)) self
  | None => self
  end.

(** [_add_hole_entry]: a new entry, numbered by the length of the list, with
    its two texts set, appended. *)
Definition _add_hole_entry (self : DialogWindow) (x y : R) : DialogWindow :=
  let entries := hole_entries (controls self) in
  let entry :=
    {| index := List.length entries;
       x_ctrl := SetValue_str x; y_ctrl := SetValue_str y |} in
  set_controls (set_hole_entries (entries ++ [entry]) (controls self)) self.

(** [_on_add_hole]: [_add_hole_entry] with its default arguments. *)
Definition _on_add_hole (self : DialogWindow) : DialogWindow :=
  _add_hole_entry self 3.5 3.5.

(** [for i, e in enumerate(entries): e.index = i], counting from [i]. *)
Fixpoint renumber (i : nat) (entries : list MountingHoleEntry)
    : list MountingHoleEntry :=
  match entries with
  | [] => []
  | e :: rest =>
      {| index := i; x_ctrl := x_ctrl e; y_ctrl := y_ctrl e |}
      :: renumber (i + 1) rest
  end.

(** [entries.remove(entry)] for the entry object that sits at place [k]:
    entry objects are distinct, so exactly that place goes; [None] when no
    entry sits there ([remove] raises). *)
Fixpoint list_remove (k : nat) (entries : list MountingHoleEntry)
    : option (list MountingHoleEntry) :=
  match entries, k with
  | [], _ => None
  | _ :: rest, O => Some rest
  | e :: rest, S k' =>
      match list_remove k' rest with
      | Some rest' => Some (e :: rest')
      | None => None
      end
  end.

(** [_remove_hole_entry], called by the Remove button of the entry at place
    [k]. *)
Definition _remove_hole_entry (self : DialogWindow) (k : nat)
    : option DialogWindow :=
  match list_remove k (hole_entries (controls self)) with
  | Some entries =>
      Some (set_controls
              (set_hole_entries (renumber 0 entries) (controls self)) self)
  | None => None
  end.

(** The four corners of [_on_add_corners]. *)
Definition corner_holes (width height inset : R) : list point :=
  [ (inset, inset);
    (width - inset, inset);
    (inset, height - inset);
    (width - inset, height - inset) ].

(** [_on_add_corners]: nothing changes when the width, the height or the
    inset does not convert (a message box is shown). *)
Definition _on_add_corners (self : DialogWindow) : DialogWindow :=
  match (width <- float (width_ctrl (controls self)) ;;
         height <- float (height_ctrl (controls self)) ;;
         inset <- float (inset_ctrl self) ;;
         ret (width, height, inset)) with
  | inl _ => self
  | inr (width, height, inset) =>
      fold_left (fun self '(x, y) => _add_hole_entry self x y)
        (corner_holes width height inset) self
  end.

(** [_on_clear_holes]. *)
Definition _on_clear_holes (self : DialogWindow) : DialogWindow :=
  set_controls (set_hole_entries [] (controls self)) self.

(** ** The validation on every value [float] returns

    [float] returns not only numbers: for the texts [inf], [-inf] and [nan]
    (and for [1e400], which is too large) it returns an infinity or
    not-a-number without raising.  The validation of [get_parameters] is
    embedded here a second time over all these values; where every text is a
    number it is the one above. *)

Inductive pyfloat :=
| number (x : R)
| pos_inf
| neg_inf
| nan.

(** [a <= b] and [a < b] on floats: a comparison with [nan] is false. *)
Definition float_le (a b : pyfloat) : bool :=
  match a, b with
  | nan, _ | _, nan => false
  | neg_inf, _ => true
  | _, pos_inf => true
  | number x, number y => Rleb x y
  | number _, neg_inf => false
  | pos_inf, _ => false
  end.

Definition float_lt (a b : pyfloat) : bool :=
  match a, b with
  | nan, _ | _, nan => false
  | pos_inf, _ => false
  | _, neg_inf => false
  | neg_inf, _ => true
  | number _, pos_inf => true
  | number x, number y => Rltb x y
  end.

(** [a > b]. *)
Definition float_gt (a b : pyfloat) : bool := float_lt b a.

(** [min(a, b)]: the first argument, unless the second is less. *)
Definition float_min (a b : pyfloat) : pyfloat :=
  if float_lt b a then b else a.

(** [a / 2]. *)
Definition float_half (a : pyfloat) : pyfloat :=
  match a with
  | number x => number (x / 2)
  | pos_inf => pos_inf
  | neg_inf => neg_inf
  | nan => nan
  end.

Module Float.

Definition TextCtrl : Type := option pyfloat.

Definition float (ctrl : TextCtrl) : raising pyfloat :=
  match ctrl with
  | Some x => ret x
  | None => raise CouldNotConvert
  end.

Record MountingHoleEntry := {
  index : nat;
  x_ctrl : TextCtrl;
  y_ctrl : TextCtrl
}.

Definition get_position (entry : MountingHoleEntry) : option (pyfloat * pyfloat) :=
  match (x <- float (x_ctrl entry) ;;
         y <- float (y_ctrl entry) ;;
         ret (x, y)) with
  | inr pos => Some pos
  | inl _ => None
  end.

Record BoardOutlineDialog := {
  width_ctrl : TextCtrl;
  height_ctrl : TextCtrl;
  radius_ctrl : TextCtrl;
  hole_diameter_ctrl : TextCtrl;
  annular_ring_ctrl : TextCtrl;
  hole_entries : list MountingHoleEntry
}.

Record Params := {
  width : pyfloat;
  height : pyfloat;
  corner_radius : pyfloat;
  hole_diameter : pyfloat;
  annular_ring : pyfloat;
  hole_positions : list (pyfloat * pyfloat)
}.

Fixpoint collect_positions (entries : list MountingHoleEntry)
    (positions : list (pyfloat * pyfloat)) : raising (list (pyfloat * pyfloat)) :=
  match entries with
  | [] => ret positions
  | entry :: rest =>
      match get_position entry with
      | None => raise (InvalidPosition (index entry + 1))
      | Some pos => collect_positions rest (positions ++ [pos])
      end
  end.

Definition get_parameters_try (self : BoardOutlineDialog) : raising Params :=
  w <- float (width_ctrl self) ;;
  h <- float (height_ctrl self) ;;
  r <- float (radius_ctrl self) ;;
  d <- float (hole_diameter_ctrl self) ;;
  a <- float (annular_ring_ctrl self) ;;
  positions <- collect_positions (hole_entries self) [] ;;
  if float_le w (number 0) || float_le h (number 0)
  then raise DimensionsNotPositive
  else if float_lt r (number 0) then raise RadiusNegative
  else if float_gt r (float_half (float_min w h)) then raise RadiusTooLarge
  else if float_le d (number 0) then raise HoleDiameterNotPositive
  else ret {| width := w; height := h; corner_radius := r;
              hole_diameter := d; annular_ring := a;
              hole_positions := positions |}.

Definition get_parameters (self : BoardOutlineDialog) : option Params :=
  match get_parameters_try self with
  | inr params => Some params
  | inl _ => None
  end.

End Float.





(** * The vocabulary of the properties

    What it means for a stored shape to be a straight segment between two
    points or an arc round a centre, for three points to fix an arc, for a
    footprint to be the mounting hole of a position, and for a dialog to be
    acceptable.  Points are in millimetres, stored coordinates in
    nanometres. *)

(** ** Segments and arcs *)


(** The point at angle [deg] (degrees, counterclockwise, 0 to the right) on
    the circle of radius [r] round [c], on a sheet whose vertical axis points
    downward. *)
Definition point_at (c : point) (r deg : R) : point :=
  (fst c + r * cos (radians deg), snd c - r * sin (radians deg)).

(** [s] is the arc round [c] of radius [r] from angle [from] to angle [to],
    given by its start, its angular midpoint and its end. *)
Definition arc_around (c : point) (r from to : R) (s : PCB_SHAPE) : Prop :=
  GetShape s = SHAPE_T_ARC /\
  GetStart s = to_VECTOR2I (point_at c r from) /\
  GetArcMid s = to_VECTOR2I (point_at c r ((from + to) / 2)) /\
  GetEnd s = to_VECTOR2I (point_at c r to).


Definition is_arc (s : PCB_SHAPE) : bool :=
  match GetShape s with
  | SHAPE_T_ARC => true
  | SHAPE_T_SEGMENT => false
  end.

(** The arcs, and the straight segments, among some board items. *)
Definition arcs (items : list BOARD_ITEM) : list PCB_SHAPE :=
  filter is_arc (drawings_of items).
Definition segments (items : list BOARD_ITEM) : list PCB_SHAPE :=
  filter (fun s => negb (is_arc s)) (drawings_of items).

(** Squared distance between two points. *)
Definition dist2 (p q : point) : R :=
  (fst p - fst q) * (fst p - fst q) + (snd p - snd q) * (snd p - snd q).

(** ** The corner arcs by their three points *)

(** The arcs of the rounded branch, each as its three points in millimetres,
    in the order they are drawn: top-left, top-right, bottom-right,
    bottom-left. *)
Definition corner_arcs (w h r : R) : list (point * point * point) :=
  let corners := corner_centers w h r in
  [ arc_points r (nth 0 corners (0, 0)) 90 180;
    arc_points r (nth 1 corners (0, 0)) 0 90;
    arc_points r (nth 2 corners (0, 0)) 270 360;
    arc_points r (nth 3 corners (0, 0)) 180 270 ].

Definition arc_start (a : point * point * point) : point := fst (fst a).
Definition arc_mid (a : point * point * point) : point := snd (fst a).
Definition arc_end (a : point * point * point) : point := snd a.

(** The shape [create_arc] stores, from the three points. *)
Definition arc_of_points (edge_cuts : Z) (a : point * point * point) : PCB_SHAPE :=
  SetWidth (mm_to_nm 0.1)
    (SetArcGeometry (to_VECTOR2I (arc_start a)) (to_VECTOR2I (arc_mid a))
       (to_VECTOR2I (arc_end a))
       (SetLayer edge_cuts (SetShape SHAPE_T_ARC new_PCB_SHAPE))).

(** The end points of the four arcs, and of the four edges. *)
Definition arc_endpoints (w h r : R) : list point :=
  flat_map (fun a => [arc_start a; arc_end a]) (corner_arcs w h r).
Definition edge_endpoints (w h r : R) : list point :=
  flat_map (fun l => [fst l; snd l]) (edge_lines w h r).

(** Each arc starts and ends where its two neighbouring edges end. *)
Definition arcs_join_edges (w h r : R) : Prop :=
  match corner_arcs w h r, edge_lines w h r with
  | [top_left; top_right; bottom_right; bottom_left], [top; right_; bottom; left_] =>
      arc_start top_left = fst top /\ arc_end top_left = snd left_ /\
      arc_start top_right = fst right_ /\ arc_end top_right = snd top /\
      arc_start bottom_right = fst bottom /\ arc_end bottom_right = snd right_ /\
      arc_start bottom_left = fst left_ /\ arc_end bottom_left = snd bottom
  | _, _ => False
  end.

(** [p] is the position of exactly one of the eight arc end points. *)
Definition shared_with_one_arc_endpoint (w h r : R) (p : point) : Prop :=
  exists! i : nat,
    (i < List.length (arc_endpoints w h r))%nat /\
    nth i (arc_endpoints w h r) (0, 0) = p.

(** The outline as C10 words it: arcs join their neighbouring edges, and
    every edge end point is shared with exactly one arc end point. *)
Definition closed_outline (w h r : R) : Prop :=
  arcs_join_edges w h r /\
  Forall (shared_with_one_arc_endpoint w h r) (edge_endpoints w h r).

(** Twice the signed area of the triangle [p q s] of stored points. *)
Definition cross_nm (p q s : VECTOR2I) : Z :=
  ((vx q - vx p) * (vy s - vy p) - (vy q - vy p) * (vx s - vx p))%Z.

(** Three stored points that are pairwise distinct and not on one line. *)
Definition vectors_determine_arc (s m e : VECTOR2I) : Prop :=
  s <> m /\ m <> e /\ s <> e /\ cross_nm s m e <> 0%Z.

(** The three stored points of [a] are pairwise distinct and not on one
    line. *)
Definition stored_points_determine_arc (a : PCB_SHAPE) : Prop :=
  GetStart a <> GetArcMid a /\
  GetArcMid a <> GetEnd a /\
  GetStart a <> GetEnd a /\
  cross_nm (GetStart a) (GetArcMid a) (GetEnd a) <> 0%Z.

(** The two products [mm * 1e6] that [mm_to_nm] truncates for the point [p],
    when they are computed with an error of at most [tol] nanometres each;
    and the vector stored from them. *)
Definition computed_within (tol : R) (p : point) (q : R * R) : Prop :=
  Rabs (fst q - fst p * 1e6) <= tol /\ Rabs (snd q - snd p * 1e6) <= tol.
Definition truncated (q : R * R) : VECTOR2I :=
  {| vx := int (fst q); vy := int (snd q) |}.

(** ** Mounting holes *)


(** ** Acceptable dialogs *)

(** The texts of a hole entry, and the texts a position comes from. *)
Definition entry_texts (entry : MountingHoleEntry) : TextCtrl * TextCtrl :=
  (x_ctrl entry, y_ctrl entry).
Definition position_texts (pos : point) : TextCtrl * TextCtrl :=
  (Some (fst pos), Some (snd pos)).

(** [params] holds what the dialog's texts convert to: the five numbers and
    the hole positions, in order. *)
Definition collected (dlg : BoardOutlineDialog) (params : Params) : Prop :=
  width_ctrl dlg = Some (width params) /\
  height_ctrl dlg = Some (height params) /\
  radius_ctrl dlg = Some (corner_radius params) /\
  hole_diameter_ctrl dlg = Some (hole_diameter params) /\
  annular_ring_ctrl dlg = Some (annular_ring params) /\
  map entry_texts (hole_entries dlg) = map position_texts (hole_positions params).

(** The ranges the validation asks for. *)
Definition in_range (params : Params) : Prop :=
  width params > 0 /\ height params > 0 /\
  0 <= corner_radius params <= Rmin (width params) (height params) / 2 /\
  hole_diameter params > 0.


(** ** Where a shape is stored, said without the conversion of the code *)

(** The stored coordinate [nm], in nanometres, is where [mm], in millimetres,
    is: less than 2 nm apart.  A truncated product is less than 1 nm off; the
    bound leaves room for the rounding of the product in the code, after
    which the truncation can differ by one from the exact one. *)
Definition nm_near (mm : R) (nm : Z) : Prop :=
  Rabs (IZR nm - mm * 1000000) < 2.

(** The stored vector [v] is where the point [p] is: its first coordinate at
    the first of [p], its second at the second. *)
Definition stored_near (p : point) (v : VECTOR2I) : Prop :=
  nm_near (fst p) (vx v) /\ nm_near (snd p) (vy v).

(** The point at [deg] degrees on the circle of radius [r] round [c]: the
    angle grows counterclockwise from the direction of growing [x], and [y]
    grows downward. *)
Definition at_angle (c : point) (r deg : R) : point :=
  (fst c + r * cos (deg * PI / 180), snd c - r * sin (deg * PI / 180)).


(** [a] is an arc stored with its start, middle and end where the three
    points [pts] are. *)
Definition arc_stored_near (pts : point * point * point) (a : PCB_SHAPE) : Prop :=
  GetShape a = SHAPE_T_ARC /\
  stored_near (arc_start pts) (GetStart a) /\
  stored_near (arc_mid pts) (GetArcMid a) /\
  stored_near (arc_end pts) (GetEnd a).



(** ** Acceptable dialogs, when a text may be an infinity or not-a-number *)














(** ** Boards and dialogs to try the properties on *)

(** A board to try the properties on: nothing on it yet, Edge.Cuts is layer
    44. *)
Definition empty_board : BOARD :=
  {| GetLayerID := fun _ => 44%Z; Items := [] |}.

(** A dialog as the user might leave it: a 100 x 80 board, corners of radius
    3, M3 holes at two places. *)
Definition sample_dialog : BoardOutlineDialog :=
  {| width_ctrl := Some 100; height_ctrl := Some 80; radius_ctrl := Some 3;
     hole_diameter_ctrl := Some 3.4; annular_ring_ctrl := Some 1.0;
     hole_entries :=
       [ {| index := 0; x_ctrl := Some 5; y_ctrl := Some 5 |};
         {| index := 1; x_ctrl := Some 95; y_ctrl := Some 75 |} ] |}.

Definition sample_params : Params :=
  {| width := 100; height := 80; corner_radius := 3; hole_diameter := 3.4;
     annular_ring := 1.0; hole_positions := [(5, 5); (95, 75)] |}.

(** A dialog whose width does not convert to a number. *)
Definition bad_width_dialog : BoardOutlineDialog :=
  {| width_ctrl := None; height_ctrl := Some 80; radius_ctrl := Some 3;
     hole_diameter_ctrl := Some 3.4; annular_ring_ctrl := Some 1.0;
     hole_entries := [] |}.


(** ** Further vocabulary: numbering, places on the board, dialog steps *)

(** The entries carry the numbers 0, 1, 2, ... in order. *)
Definition well_numbered (entries : list MountingHoleEntry) : Prop :=
  map index entries = seq 0 (List.length entries).

(** [p] lies on the board of width [w] and height [h], in board
    coordinates. *)
Definition on_board (w h : R) (p : point) : Prop :=
  0 <= fst p <= w /\ 0 <= snd p <= h.

(** [p] lies in the rectangle the board takes on the sheet. *)
Definition on_sheet_rectangle (w h : R) (p : point) : Prop :=
  BOARD_OFFSET_X <= fst p <= BOARD_OFFSET_X + w /\
  BOARD_OFFSET_Y <= snd p <= BOARD_OFFSET_Y + h.

(** The points of the rounded outline: the ends of its edges and the three
    points of each of its arcs. *)
Definition outline_points (w h r : R) : list point :=
  edge_endpoints w h r ++
  flat_map (fun a => [arc_start a; arc_mid a; arc_end a]) (corner_arcs w h r).


(** [params] with other hole positions, another annular ring or another hole
    diameter. *)
Definition with_hole_positions (positions : list point) (params : Params)
    : Params :=
  {| width := width params; height := height params;
     corner_radius := corner_radius params;
     hole_diameter := hole_diameter params;
     annular_ring := annular_ring params; hole_positions := positions |}.
Definition with_annular_ring (a : R) (params : Params) : Params :=
  {| width := width params; height := height params;
     corner_radius := corner_radius params;
     hole_diameter := hole_diameter params;
     annular_ring := a; hole_positions := hole_positions params |}.
Definition with_hole_diameter (d : R) (params : Params) : Params :=
  {| width := width params; height := height params;
     corner_radius := corner_radius params; hole_diameter := d;
     annular_ring := annular_ring params;
     hole_positions := hole_positions params |}.

(** One thing the user does to the open dialog: type into text controls
    (which leaves the entries and their numbers in place), or set off one of
    the handlers. *)
Inductive dialog_step : DialogWindow -> DialogWindow -> Prop :=
| step_typing (self self' : DialogWindow) :
    map index (hole_entries (controls self')) =
      map index (hole_entries (controls self)) ->
    dialog_step self self'
| step_preset (self : DialogWindow) (selection : string) :
    dialog_step self
      (_on_preset_changed
         {| controls := controls self; preset_choice := selection;
            inset_ctrl := inset_ctrl self |})
| step_add_hole (self : DialogWindow) :
    dialog_step self (_on_add_hole self)
| step_add_corners (self : DialogWindow) :
    dialog_step self (_on_add_corners self)
| step_remove (self self' : DialogWindow) (k : nat) :
    _remove_hole_entry self k = Some self' ->
    dialog_step self self'
| step_clear (self : DialogWindow) :
    dialog_step self (_on_clear_holes self).

(** The dialogs the user can bring about, starting from the one that
    opens. *)
Inductive reachable : DialogWindow -> Prop :=
| reachable_new : reachable new_BoardOutlineDialog
| reachable_step (self self' : DialogWindow) :
    reachable self -> dialog_step self self' -> reachable self'.

(** A dialog with three holes, the second of which has a text that is no
    number. *)
Definition bad_second_hole_dialog : BoardOutlineDialog :=
  {| width_ctrl := Some 100; height_ctrl := Some 80; radius_ctrl := Some 3;
     hole_diameter_ctrl := Some 3.4; annular_ring_ctrl := Some 1.0;
     hole_entries :=
       [ {| index := 0; x_ctrl := Some 5; y_ctrl := Some 5 |};
         {| index := 1; x_ctrl := Some 95; y_ctrl := None |};
         {| index := 2; x_ctrl := None; y_ctrl := Some 75 |} ] |}.

(** The sample dialog as a whole window, with the M4 preset chosen. *)
Definition sample_window : DialogWindow :=
  {| controls := sample_dialog; preset_choice := "M4"%string;
     inset_ctrl := Some 5.0 |}.

(** The shapes of an outline on layer [e], in the order they are added. *)
Definition outline_shapes (e : Z) (w h r : R) : list PCB_SHAPE :=
  let ox := BOARD_OFFSET_X in
  let oy := BOARD_OFFSET_Y in
  if Reqb r 0 then
    [ outline_segment e (ox, oy) (ox + w, oy);
      outline_segment e (ox + w, oy) (ox + w, oy + h);
      outline_segment e (ox + w, oy + h) (ox, oy + h);
      outline_segment e (ox, oy + h) (ox, oy) ]
  else
    [ outline_segment e (ox + r, oy) (ox + w - r, oy);
      outline_segment e (ox + w, oy + r) (ox + w, oy + h - r);
      outline_segment e (ox + w - r, oy + h) (ox + r, oy + h);
      outline_segment e (ox, oy + h - r) (ox, oy + r);
      arc_shape e r (ox + r, oy + r) 90 180;
      arc_shape e r (ox + w - r, oy + r) 0 90;
      arc_shape e r (ox + w - r, oy + h - r) 270 360;
      arc_shape e r (ox + r, oy + h - r) 180 270 ].

(** * Properties *)

(** ** Numbers *)

Lemma Reqb_refl (x : R) : Reqb x x = true.
Proof. unfold Reqb. destruct (Req_dec_T x x); [reflexivity | contradiction]. Qed.

Lemma Reqb_neq (x y : R) : x <> y -> Reqb x y = false.
Proof.
  intros H. unfold Reqb.
  destruct (Req_dec_T x y); [contradiction | reflexivity].
Qed.

Lemma Rleb_false (x y : R) : Rleb x y = false <-> y < x.
Proof.
  unfold Rleb. destruct (Rle_dec x y); split; intros; try discriminate; lra.
Qed.

Lemma Rltb_false (x y : R) : Rltb x y = false <-> y <= x.
Proof.
  unfold Rltb. destruct (Rlt_dec x y); split; intros; try discriminate; lra.
Qed.

Lemma Rgtb_false (x y : R) : Rgtb x y = false <-> x <= y.
Proof.
  unfold Rgtb. destruct (Rgt_dec x y); split; intros; try discriminate; lra.
Qed.

Lemma Rmin_100_80 : Rmin 100 80 = 80.
Proof. unfold Rmin. destruct (Rle_dec 100 80); lra. Qed.

(** [int] on a non-negative number is the integer just below it. *)
Lemma int_floor (x : R) (z : Z) : 0 <= x -> IZR z <= x < IZR z + 1 -> int x = z.
Proof.
  intros H0 [Hlo Hhi]. unfold int.
  destruct (Rle_dec 0 x); [| contradiction].
  symmetry. apply Int_part_spec. lra.
Qed.

Lemma int_IZR (z : Z) : int (IZR z) = z.
Proof.
  unfold int. destruct (Rle_dec 0 (IZR z)).
  - symmetry. apply Int_part_spec. lra.
  - rewrite <- opp_IZR.
    assert (H : (- z)%Z = Int_part (IZR (- z))) by (apply Int_part_spec; lra).
    rewrite <- H. lia.
Qed.

Lemma int_err (x : R) : -1 < IZR (int x) - x < 1.
Proof.
  unfold int. destruct (Rle_dec 0 x).
  - pose proof (base_Int_part x). lra.
  - pose proof (base_Int_part (- x)). rewrite opp_IZR. lra.
Qed.

(** The difference of two stored coordinates is the difference of the
    coordinates in nanometres, up to 2. *)
Lemma mm_to_nm_difference (x y : R) :
  -2 < IZR (mm_to_nm x - mm_to_nm y) - (x - y) * 1e6 < 2.
Proof.
  unfold mm_to_nm. rewrite minus_IZR.
  pose proof (int_err (x * 1e6)). pose proof (int_err (y * 1e6)). lra.
Qed.

(** ** Angles *)

Lemma radians_mid (s t : R) : (radians s + radians t) / 2 = radians ((s + t) / 2).
Proof. unfold radians. field. Qed.

Lemma radians_0 : radians 0 = 0.
Proof. unfold radians. field. Qed.
Lemma radians_45 : radians 45 = PI / 4.
Proof. unfold radians. field. Qed.
Lemma radians_90 : radians 90 = PI / 2.
Proof. unfold radians. field. Qed.
Lemma radians_135 : radians 135 = 3 * (PI / 4).
Proof. unfold radians. field. Qed.
Lemma radians_180 : radians 180 = PI.
Proof. unfold radians. field. Qed.
Lemma radians_225 : radians 225 = 5 * (PI / 4).
Proof. unfold radians. field. Qed.
Lemma radians_270 : radians 270 = 3 * (PI / 2).
Proof. unfold radians. field. Qed.
Lemma radians_315 : radians 315 = 2 * PI - PI / 4.
Proof. unfold radians. field. Qed.
Lemma radians_360 : radians 360 = 2 * PI.
Proof. unfold radians. field. Qed.

Lemma cos_7PI4 : cos (2 * PI - PI / 4) = 1 / sqrt 2.
Proof. rewrite cos_minus, cos_2PI, sin_2PI, cos_PI4. ring. Qed.
Lemma sin_7PI4 : sin (2 * PI - PI / 4) = - (1 / sqrt 2).
Proof. rewrite sin_minus, cos_2PI, sin_2PI, sin_PI4. ring. Qed.

Lemma inv_sqrt2_bounds : 7 / 10 < / sqrt 2 < 71 / 100.
Proof.
  assert (H2 : 0 <= 2) by lra.
  pose proof (sqrt_sqrt 2 H2) as Hs.
  pose proof (sqrt_pos 2) as Hp.
  assert (Hlo : 141 / 100 < sqrt 2) by nra.
  assert (Hhi : sqrt 2 < 142 / 100) by nra.
  assert (Hinv : sqrt 2 * / sqrt 2 = 1) by (apply Rinv_r; lra).
  assert (Hpos : 0 < / sqrt 2) by (apply Rinv_0_lt_compat; lra).
  split; nra.
Qed.

(** [r / sqrt 2] lies strictly between [0.7 r] and [0.71 r]. *)
Lemma div_sqrt2_bounds (r : R) :
  0 < r -> 7 / 10 * r < r / sqrt 2 < 71 / 100 * r.
Proof.
  intros Hr. pose proof inv_sqrt2_bounds as [Hlo Hhi].
  change (r / sqrt 2) with (r * / sqrt 2). split; nra.
Qed.

(** ** Points on the corner circles *)

(** Every point [point_at c r deg] lies at distance [r] from [c]. *)
Lemma point_at_radius (c : point) (r deg : R) : dist2 (point_at c r deg) c = r * r.
Proof.
  unfold dist2, point_at. cbn [fst snd].
  pose proof (sin2_cos2 (radians deg)) as H. unfold Rsqr in H.
  replace (fst c + r * cos (radians deg) - fst c) with (r * cos (radians deg)) by ring.
  replace (snd c - r * sin (radians deg) - snd c) with (- (r * sin (radians deg))) by ring.
  replace (r * r) with (r * r * (sin (radians deg) * sin (radians deg)
                                  + cos (radians deg) * cos (radians deg)))
    by (rewrite H; ring).
  ring.
Qed.

(** The points at the nine angles the corners use. *)
Lemma point_at_0 (c : point) (r : R) : point_at c r 0 = (fst c + r, snd c).
Proof.
  unfold point_at. rewrite radians_0, cos_0, sin_0. f_equal; ring.
Qed.
Lemma point_at_45 (c : point) (r : R) :
  point_at c r 45 = (fst c + r / sqrt 2, snd c - r / sqrt 2).
Proof.
  unfold point_at. rewrite radians_45, cos_PI4, sin_PI4.
  f_equal; field; apply sqrt2_neq_0.
Qed.
Lemma point_at_90 (c : point) (r : R) : point_at c r 90 = (fst c, snd c - r).
Proof.
  unfold point_at. rewrite radians_90, cos_PI2, sin_PI2. f_equal; ring.
Qed.
Lemma point_at_135 (c : point) (r : R) :
  point_at c r 135 = (fst c - r / sqrt 2, snd c - r / sqrt 2).
Proof.
  unfold point_at. rewrite radians_135, cos_3PI4, sin_3PI4.
  f_equal; field; apply sqrt2_neq_0.
Qed.
Lemma point_at_180 (c : point) (r : R) : point_at c r 180 = (fst c - r, snd c).
Proof.
  unfold point_at. rewrite radians_180, cos_PI, sin_PI. f_equal; ring.
Qed.
Lemma point_at_225 (c : point) (r : R) :
  point_at c r 225 = (fst c - r / sqrt 2, snd c + r / sqrt 2).
Proof.
  unfold point_at. rewrite radians_225, cos_5PI4, sin_5PI4.
  f_equal; field; apply sqrt2_neq_0.
Qed.
Lemma point_at_270 (c : point) (r : R) : point_at c r 270 = (fst c, snd c + r).
Proof.
  unfold point_at. rewrite radians_270, cos_3PI2, sin_3PI2. f_equal; ring.
Qed.
Lemma point_at_315 (c : point) (r : R) :
  point_at c r 315 = (fst c + r / sqrt 2, snd c + r / sqrt 2).
Proof.
  unfold point_at. rewrite radians_315, cos_7PI4, sin_7PI4.
  f_equal; field; apply sqrt2_neq_0.
Qed.
Lemma point_at_360 (c : point) (r : R) : point_at c r 360 = (fst c + r, snd c).
Proof.
  unfold point_at. rewrite radians_360, cos_2PI, sin_2PI. f_equal; ring.
Qed.

(** The three points of [create_arc] are the points at the start angle, the
    middle angle and the end angle. *)
Lemma arc_points_point_at (r : R) (c : point) (s t : R) :
  arc_points r c s t = (point_at c r s, point_at c r ((s + t) / 2), point_at c r t).
Proof.
  destruct c as [cx cy]. unfold arc_points, point_at. cbn [fst snd].
  rewrite radians_mid. reflexivity.
Qed.

(** The twelve points of the four arcs, in closed form. *)
Lemma corner_arcs_closed_form (w h r : R) :
  let ox := BOARD_OFFSET_X in
  let oy := BOARD_OFFSET_Y in
  corner_arcs w h r =
  [ ((ox + r, oy),
     (ox + r - r / sqrt 2, oy + r - r / sqrt 2),
     (ox, oy + r));
    ((ox + w, oy + r),
     (ox + w - r + r / sqrt 2, oy + r - r / sqrt 2),
     (ox + w - r, oy));
    ((ox + w - r, oy + h),
     (ox + w - r + r / sqrt 2, oy + h - r + r / sqrt 2),
     (ox + w, oy + h - r));
    ((ox, oy + h - r),
     (ox + r - r / sqrt 2, oy + h - r + r / sqrt 2),
     (ox + r, oy + h)) ].
Proof.
  intros ox oy. unfold corner_arcs, corner_centers. cbn [nth].
  rewrite !arc_points_point_at.
  replace ((90 + 180) / 2) with 135 by lra.
  replace ((0 + 90) / 2) with 45 by lra.
  replace ((270 + 360) / 2) with 315 by lra.
  replace ((180 + 270) / 2) with 225 by lra.
  rewrite !point_at_0, !point_at_45, !point_at_90, !point_at_135, !point_at_180,
    !point_at_225, !point_at_270, !point_at_315, !point_at_360.
  cbn [fst snd]. fold ox oy.
  repeat (f_equal; try ring).
Qed.

Lemma arc_endpoints_closed_form (w h r : R) :
  let ox := BOARD_OFFSET_X in
  let oy := BOARD_OFFSET_Y in
  arc_endpoints w h r =
  [ (ox + r, oy); (ox, oy + r);
    (ox + w, oy + r); (ox + w - r, oy);
    (ox + w - r, oy + h); (ox + w, oy + h - r);
    (ox, oy + h - r); (ox + r, oy + h) ].
Proof.
  intros ox oy. unfold arc_endpoints. rewrite corner_arcs_closed_form.
  reflexivity.
Qed.

(** ** What [create_board_outline] adds *)

Lemma arc_shape_arc_around (e : Z) (r : R) (c : point) (s t : R) :
  arc_around c r s t (arc_shape e r c s t).
Proof.
  unfold arc_shape. rewrite arc_points_point_at.
  repeat split.
Qed.

Lemma arc_shape_of_points (e : Z) (r : R) (c : point) (s t : R) :
  arc_shape e r c s t = arc_of_points e (arc_points r c s t).
Proof.
  unfold arc_shape, arc_of_points.
  destruct (arc_points r c s t) as [[p m] q]. reflexivity.
Qed.


(** The plain branch, unfolded: four segments round the rectangle. *)
Lemma create_board_outline_plain (board : BOARD) (w h : R) :
  Items (create_board_outline board w h 0) =
  Items board ++
  map Drawing
    (let e := GetLayerID board "Edge.Cuts"%string in
     let ox := BOARD_OFFSET_X in
     let oy := BOARD_OFFSET_Y in
     [ outline_segment e (ox, oy) (ox + w, oy);
       outline_segment e (ox + w, oy) (ox + w, oy + h);
       outline_segment e (ox + w, oy + h) (ox, oy + h);
       outline_segment e (ox, oy + h) (ox, oy) ]).
Proof.
  unfold create_board_outline. rewrite Reqb_refl.
  cbn [rectangle_points List.length Nat.sub seq fold_left nth Nat.add Add Items map].
  repeat rewrite <- app_assoc. reflexivity.
Qed.

(** The rounded branch, unfolded: four segments, then four arcs. *)
Lemma create_board_outline_rounded (board : BOARD) (w h r : R) :
  r <> 0 ->
  Items (create_board_outline board w h r) =
  Items board ++
  map Drawing
    (let e := GetLayerID board "Edge.Cuts"%string in
     let ox := BOARD_OFFSET_X in
     let oy := BOARD_OFFSET_Y in
     [ outline_segment e (ox + r, oy) (ox + w - r, oy);
       outline_segment e (ox + w, oy + r) (ox + w, oy + h - r);
       outline_segment e (ox + w - r, oy + h) (ox + r, oy + h);
       outline_segment e (ox, oy + h - r) (ox, oy + r);
       arc_shape e r (ox + r, oy + r) 90 180;
       arc_shape e r (ox + w - r, oy + r) 0 90;
       arc_shape e r (ox + w - r, oy + h - r) 270 360;
       arc_shape e r (ox + r, oy + h - r) 180 270 ]).
Proof.
  intros Hr. unfold create_board_outline. rewrite (Reqb_neq _ _ Hr).
  cbn [edge_lines corner_centers fold_left nth create_arc Add Items map GetLayerID].
  repeat rewrite <- app_assoc. reflexivity.
Qed.

Lemma create_board_outline_GetLayerID (board : BOARD) (w h r : R) :
  GetLayerID (create_board_outline board w h r) = GetLayerID board.
Proof.
  unfold create_board_outline. destruct (Reqb r 0); reflexivity.
Qed.

(** The arcs [create_board_outline] stores are those of [corner_arcs]. *)
Lemma create_board_outline_arcs (board : BOARD) (w h r : R) :
  r <> 0 ->
  exists added,
    Items (create_board_outline board w h r) = Items board ++ added /\
    arcs added =
      map (arc_of_points (GetLayerID board "Edge.Cuts"%string)) (corner_arcs w h r).
Proof.
  intros Hne. eexists.
  split; [apply (create_board_outline_rounded board w h r Hne) |].
  cbn [map]. unfold arcs. cbn [drawings_of filter is_arc].
  rewrite !arc_shape_of_points. reflexivity.
Qed.


Example mm_to_nm_truncates : mm_to_nm 25.0000019 = 25000001%Z.
Proof. unfold mm_to_nm. apply int_floor; lra. Qed.

Example mm_to_nm_truncates_toward_zero : mm_to_nm (-0.0000019) = (-1)%Z.
Proof.
  unfold mm_to_nm, int.
  destruct (Rle_dec 0 (-0.0000019 * 1e6)) as [H | _]; [lra |].
  assert (H : 1%Z = Int_part (- (-0.0000019 * 1e6))) by (apply Int_part_spec; lra).
  rewrite <- H. reflexivity.
Qed.

Example top_left_corner_stored :
  to_VECTOR2I (BOARD_OFFSET_X, BOARD_OFFSET_Y) = {| vx := 25000000; vy := 25000000 |}.
Proof.
  unfold to_VECTOR2I, mm_to_nm, BOARD_OFFSET_X, BOARD_OFFSET_Y. cbn [fst snd].
  replace (25.0 * 1e6) with (IZR 25000000) by lra. now rewrite int_IZR.
Qed.

Example first_hole_reference :
  GetReference (snd (create_mounting_hole empty_board 5 5 3.4 1.0)) = "H1"%string.
Proof. reflexivity. Qed.

Example third_hole_reference :
  let board := fst (create_mounting_hole empty_board 5 5 3.4 1.0) in
  let board := fst (create_mounting_hole board 95 5 3.4 1.0) in
  GetReference (snd (create_mounting_hole board 95 75 3.4 1.0)) = "H3"%string.
Proof. reflexivity. Qed.

(** ** Stored points *)

Lemma mm_to_nm_near (mm : R) : nm_near mm (mm_to_nm mm).
Proof.
  unfold nm_near, mm_to_nm. pose proof (int_err (mm * 1e6)) as H.
  apply Rabs_def1; lra.
Qed.


Lemma at_angle_point_at (c : point) (r deg : R) : at_angle c r deg = point_at c r deg.
Proof. reflexivity. Qed.


Lemma arc_of_points_stored_near (e : Z) (pts : point * point * point) :
  arc_stored_near pts (arc_of_points e pts).
Proof. split; [reflexivity |]. repeat split; apply mm_to_nm_near. Qed.


(** ** The rounded outline: arcs (C1) *)




(** ** The points of an arc (C2) *)

(** The point at an angle, at the four axis directions: 0 degrees is to the
    right of the centre, 90 degrees above it (smaller [y]), 180 degrees to
    the left and 270 degrees below. *)
Lemma at_angle_axes (c : point) (r : R) :
  at_angle c r 0 = (fst c + r, snd c) /\
  at_angle c r 90 = (fst c, snd c - r) /\
  at_angle c r 180 = (fst c - r, snd c) /\
  at_angle c r 270 = (fst c, snd c + r).
Proof.
  change (at_angle c r 0) with (point_at c r 0).
  change (at_angle c r 90) with (point_at c r 90).
  change (at_angle c r 180) with (point_at c r 180).
  change (at_angle c r 270) with (point_at c r 270).
  rewrite point_at_0, point_at_90, point_at_180, point_at_270.
  repeat split.
Qed.

(** A quarter turn more of angle takes the offset [(dx, dy)] from the centre
    to [(dy, - dx)]: on a sheet whose [y] grows downward that is a turn
    counterclockwise. *)
Lemma at_angle_quarter_turn (c : point) (r deg : R) :
  at_angle c r (deg + 90) =
    (fst c + (snd (at_angle c r deg) - snd c),
     snd c - (fst (at_angle c r deg) - fst c)).
Proof.
  unfold at_angle. cbn [fst snd].
  replace ((deg + 90) * PI / 180) with (PI / 2 + deg * PI / 180) by field.
  rewrite cos_plus, sin_plus, cos_PI2, sin_PI2. f_equal; ring.
Qed.

(** C2.  For every centre [(cx, cy)], radius [r] and angles [s], [t] in
    degrees, the three points of the arc are those at the angles [s],
    [(s + t) / 2] and [t], the point at [deg] degrees being
    [(cx + r * cos a, cy - r * sin a)] with [a = deg * PI / 180].  The sine
    term is subtracted because the vertical axis points downward: 0 degrees
    is right of the centre, 90 degrees above it, 180 left and 270 below, every
    point is at distance [r] from the centre, and adding 90 degrees turns a
    point a quarter counterclockwise.  The shape handed to the board stores
    these three points in nanometres. *)
Theorem arc_points_formula (edge_cuts : Z) (board : BOARD) (r cx cy s t : R) :
  let p (deg : R) : point :=
    (cx + r * cos (deg * PI / 180), cy - r * sin (deg * PI / 180)) in
  arc_points r (cx, cy) s t = (p s, p ((s + t) / 2), p t) /\
  p 0 = (cx + r, cy) /\
  p 90 = (cx, cy - r) /\
  p 180 = (cx - r, cy) /\
  p 270 = (cx, cy + r) /\
  (forall deg, dist2 (p deg) (cx, cy) = r * r) /\
  (forall deg,
      p (deg + 90) = (cx + (snd (p deg) - cy), cy - (fst (p deg) - cx))) /\
  exists arc,
    Items (create_arc edge_cuts r (cx, cy) s t board) =
      Items board ++ [Drawing arc] /\
    GetShape arc = SHAPE_T_ARC /\
    GetStart arc = to_VECTOR2I (p s) /\
    GetArcMid arc = to_VECTOR2I (p ((s + t) / 2)) /\
    GetEnd arc = to_VECTOR2I (p t) /\
    arc_stored_near (p s, p ((s + t) / 2), p t) arc.
Proof.
  intros p.
  assert (Hp : forall deg, p deg = at_angle (cx, cy) r deg) by reflexivity.
  assert (Hpts : arc_points r (cx, cy) s t = (p s, p ((s + t) / 2), p t)).
  { rewrite arc_points_point_at. reflexivity. }
  destruct (at_angle_axes (cx, cy) r) as (A0 & A90 & A180 & A270).
  split; [exact Hpts |].
  split; [exact A0 |]. split; [exact A90 |].
  split; [exact A180 |]. split; [exact A270 |].
  split; [intros deg; rewrite Hp; apply point_at_radius |].
  split; [intros deg; rewrite !Hp; apply at_angle_quarter_turn |].
  exists (arc_shape edge_cuts r (cx, cy) s t).
  split; [reflexivity |].
  destruct (arc_shape_arc_around edge_cuts r (cx, cy) s t) as (Hs & Ha & Hm & He).
  split; [exact Hs |]. split; [exact Ha |].
  split; [exact Hm |]. split; [exact He |].
  rewrite arc_shape_of_points, Hpts. apply arc_of_points_stored_near.
Qed.

(** ** The plain rectangle (C4) *)



(** ** The rounded outline: straight edges (C5) *)



(** ** The outline is closed (C10) *)

Lemma arcs_join_edges_always (w h r : R) : arcs_join_edges w h r.
Proof.
  unfold arcs_join_edges. rewrite corner_arcs_closed_form.
  unfold edge_lines, arc_start, arc_end. cbn [fst snd].
  repeat split.
Qed.

(** Two points given by their coordinates differ when the hypotheses say
    so. *)
Ltac points_differ :=
  match goal with
  | H : (_, _) = (_, _) |- _ => injection H; intros; lra
  end.

(** [p] is the [n]-th of the eight arc end points and no other. *)
Ltac only_the_nth n :=
  exists n; split;
  [ split; [cbn [List.length]; lia | reflexivity]
  | let i := fresh "i" in
    let Hi := fresh "Hi" in
    let Hp := fresh "Hp" in
    intros i [Hi Hp];
    do 8 (destruct i as [| i];
          [first [reflexivity | exfalso; cbn [nth] in Hp; points_differ] |]);
    cbn [List.length] in Hi; lia ].

Lemma edge_endpoints_shared_once (w h r : R) :
  0 < r -> r < Rmin w h / 2 ->
  Forall (shared_with_one_arc_endpoint w h r) (edge_endpoints w h r).
Proof.
  intros Hr Hlt.
  assert (Hw : 2 * r < w) by (pose proof (Rmin_l w h); lra).
  assert (Hh : 2 * r < h) by (pose proof (Rmin_r w h); lra).
  unfold shared_with_one_arc_endpoint.
  rewrite arc_endpoints_closed_form.
  unfold edge_endpoints, edge_lines. cbn [flat_map app fst snd].
  generalize BOARD_OFFSET_X BOARD_OFFSET_Y. intros ox oy.
  repeat apply Forall_cons; [.. | apply Forall_nil].
  - only_the_nth 0%nat.
  - only_the_nth 3%nat.
  - only_the_nth 2%nat.
  - only_the_nth 5%nat.
  - only_the_nth 4%nat.
  - only_the_nth 7%nat.
  - only_the_nth 6%nat.
  - only_the_nth 1%nat.
Qed.

(** C10, as stated, fails when the radius is half the width: on a 10 x 10
    board with radius 5 the top edge shrinks to the point [(ox+5, oy)], which
    is both the start of the top-left arc and the end of the top-right arc. *)
Lemma half_width_radius_shares_twice :
  0 < 5 <= Rmin 10 10 / 2 /\ ~ closed_outline 10 10 5.
Proof.
  split.
  - unfold Rmin. destruct (Rle_dec 10 10); lra.
  - intros [_ Hall].
    unfold edge_endpoints, edge_lines in Hall. cbn [flat_map app fst snd] in Hall.
    apply Forall_inv in Hall.
    unfold shared_with_one_arc_endpoint in Hall.
    rewrite arc_endpoints_closed_form in Hall.
    destruct Hall as (i & _ & Huniq).
    assert (H0 : i = 0%nat).
    { apply Huniq. split; [cbn [List.length]; lia | reflexivity]. }
    assert (H3 : i = 3%nat).
    { apply Huniq. split; [cbn [List.length]; lia |].
      cbn [nth]. f_equal. lra. }
    congruence.
Qed.

(** C10, amended.  For [0 < r <= min(w,h)/2], in exact arithmetic, each arc
    starts and ends at end points of its two neighbouring edges, so the eight
    shapes form one closed outline, and the stored arcs and segments meet in
    the same nanometre positions; when moreover [r < min(w,h)/2], every edge
    end point is shared with exactly one arc end point. *)
Theorem outline_closed (board : BOARD) (w h r : R) :
  0 < r <= Rmin w h / 2 ->
  arcs_join_edges w h r /\
  (r < Rmin w h / 2 ->
   Forall (shared_with_one_arc_endpoint w h r) (edge_endpoints w h r)) /\
  exists top right_ bottom left_ top_left top_right bottom_right bottom_left,
    Items (create_board_outline board w h r) =
      Items board ++
      map Drawing [top; right_; bottom; left_;
                   top_left; top_right; bottom_right; bottom_left] /\
    segments (map Drawing [top; right_; bottom; left_]) = [top; right_; bottom; left_] /\
    arcs (map Drawing [top_left; top_right; bottom_right; bottom_left]) =
      [top_left; top_right; bottom_right; bottom_left] /\
    GetStart top_left = GetStart top /\ GetEnd top_left = GetEnd left_ /\
    GetStart top_right = GetStart right_ /\ GetEnd top_right = GetEnd top /\
    GetStart bottom_right = GetStart bottom /\ GetEnd bottom_right = GetEnd right_ /\
    GetStart bottom_left = GetStart left_ /\ GetEnd bottom_left = GetEnd bottom.
Proof.
  intros [Hr Hmax].
  split; [apply arcs_join_edges_always |].
  split; [intros Hlt; now apply edge_endpoints_shared_once |].
  assert (Hne : r <> 0) by lra.
  do 8 eexists.
  split; [apply (create_board_outline_rounded board w h r Hne) |].
  split; [reflexivity |].
  split; [reflexivity |].
  rewrite !arc_shape_of_points.
  set (d := ((0, 0), (0, 0), (0, 0)) : point * point * point).
  change (arc_points r (BOARD_OFFSET_X + r, BOARD_OFFSET_Y + r) 90 180)
    with (nth 0 (corner_arcs w h r) d).
  change (arc_points r (BOARD_OFFSET_X + w - r, BOARD_OFFSET_Y + r) 0 90)
    with (nth 1 (corner_arcs w h r) d).
  change (arc_points r (BOARD_OFFSET_X + w - r, BOARD_OFFSET_Y + h - r) 270 360)
    with (nth 2 (corner_arcs w h r) d).
  change (arc_points r (BOARD_OFFSET_X + r, BOARD_OFFSET_Y + h - r) 180 270)
    with (nth 3 (corner_arcs w h r) d).
  rewrite corner_arcs_closed_form. cbn [nth].
  repeat split.
Qed.

Lemma outline_closed_witness :
  0 < 3 <= Rmin 100 80 / 2 /\
  arcs_join_edges 100 80 3 /\
  Forall (shared_with_one_arc_endpoint 100 80 3) (edge_endpoints 100 80 3).
Proof.
  assert (H : 0 < 3 <= Rmin 100 80 / 2) by (rewrite Rmin_100_80; lra).
  assert (Hlt : 3 < Rmin 100 80 / 2) by (rewrite Rmin_100_80; lra).
  destruct (outline_closed empty_board 100 80 3 H) as (Hjoin & Honce & _).
  exact (conj H (conj Hjoin (Honce Hlt))).
Defined.

(** ** Three points per arc (C8) *)

Lemma inv_sqrt2_close : 0.7071 < / sqrt 2 < 0.70711.
Proof.
  assert (H2 : 0 <= 2) by lra.
  pose proof (sqrt_sqrt 2 H2) as Hs.
  pose proof (sqrt_pos 2) as Hp.
  assert (Hlo : 1.41421 < sqrt 2) by nra.
  assert (Hhi : sqrt 2 < 1.41422) by nra.
  assert (Hinv : sqrt 2 * / sqrt 2 = 1) by (apply Rinv_r; lra).
  assert (Hpos : 0 < / sqrt 2) by (apply Rinv_0_lt_compat; lra).
  split; nra.
Qed.

Lemma Rabs_le_inv (a b : R) : Rabs a <= b -> - b <= a <= b.
Proof.
  intros H. pose proof (Rle_abs a). pose proof (Rle_abs (- a)) as Hn.
  rewrite Rabs_Ropp in Hn. lra.
Qed.

(** Truncating two values that are not negative changes their difference by
    less than one. *)
Lemma int_step (x y : R) :
  0 <= x -> 0 <= y -> -1 < IZR (int y - int x) - (y - x) < 1.
Proof.
  intros Hx Hy. rewrite minus_IZR. unfold int.
  destruct (Rle_dec 0 x); [| contradiction].
  destruct (Rle_dec 0 y); [| contradiction].
  pose proof (base_Int_part x). pose proof (base_Int_part y). lra.
Qed.

(** Along either axis an arc takes a small step, [R - U], and a large one,
    [U], where [R] is the radius and [U] the radius over [sqrt 2], both in
    nanometres.  From 4.25 nm on, the small step stays below the large one
    after truncation, also when each step is off by 0.002 nm. *)
Lemma small_step_below_large (p d R U : R) (P D : Z) :
  -1 < IZR P - p < 1 -> -1 < IZR D - d < 1 ->
  R - U - 0.002 <= p <= R - U + 0.002 ->
  U - 0.002 <= d <= U + 0.002 ->
  4.25 <= R -> 0.7071 * R <= U <= 0.70711 * R ->
  (0 <= P < D)%Z.
Proof.
  intros HP HD Hp Hd HR HU.
  assert (H3 : (3 <= D)%Z).
  { assert (H : (2 < D)%Z) by (apply lt_IZR; lra). lia. }
  assert (H0 : (0 <= P)%Z).
  { assert (H : (-1 < P)%Z) by (apply lt_IZR; lra). lia. }
  split; [exact H0 |].
  destruct (Rle_dec R 5) as [Hsmall | Hlarge].
  - assert (H : (P < 3)%Z) by (apply lt_IZR; lra). lia.
  - apply lt_IZR. lra.
Qed.

(** The same for three values along an axis: [a], then [b] a small step
    further, then [c] a large step further; and with the large step first. *)
Lemma steps_small_large (a b c ca R U : R) :
  0 <= a -> 0 <= b -> 0 <= c ->
  Rabs (a - ca) <= 0.001 ->
  Rabs (b - (ca + (R - U))) <= 0.001 ->
  Rabs (c - (ca + R)) <= 0.001 ->
  4.25 <= R -> 0.7071 * R <= U <= 0.70711 * R ->
  (0 <= int b - int a < int c - int b)%Z.
Proof.
  intros Ha Hb Hc Hca Hcb Hcc HR HU.
  apply Rabs_le_inv in Hca, Hcb, Hcc.
  apply (small_step_below_large (b - a) (c - b) R U);
    try assumption; try (apply int_step; assumption); lra.
Qed.

Lemma steps_large_small (a b c ca R U : R) :
  0 <= a -> 0 <= b -> 0 <= c ->
  Rabs (a - ca) <= 0.001 ->
  Rabs (b - (ca + U)) <= 0.001 ->
  Rabs (c - (ca + R)) <= 0.001 ->
  4.25 <= R -> 0.7071 * R <= U <= 0.70711 * R ->
  (0 <= int c - int b < int b - int a)%Z.
Proof.
  intros Ha Hb Hc Hca Hcb Hcc HR HU.
  apply Rabs_le_inv in Hca, Hcb, Hcc.
  apply (small_step_below_large (c - b) (b - a) R U);
    try assumption; try (apply int_step; assumption); lra.
Qed.

(** Two small steps multiply to less than two large ones. *)
Lemma small_steps_product (P1 D1 P2 D2 : Z) :
  (0 <= P1 < D1)%Z -> (0 <= P2 < D2)%Z -> (P1 * P2 < D1 * D2)%Z.
Proof. intros H1 H2. nia. Qed.

(** Stored points that are off one line are pairwise distinct. *)
Lemma off_line_distinct (p q s : VECTOR2I) :
  cross_nm p q s <> 0%Z -> p <> q /\ q <> s /\ p <> s.
Proof.
  intros H. repeat split; intros ->; apply H; unfold cross_nm; lia.
Qed.

Lemma off_line_determine (p q s : VECTOR2I) :
  cross_nm p q s <> 0%Z -> vectors_determine_arc p q s.
Proof.
  intros H. destruct (off_line_distinct _ _ _ H) as (H1 & H2 & H3).
  repeat split; assumption.
Qed.

Lemma arc_of_points_determined (e : Z) (a : point * point * point) :
  vectors_determine_arc (to_VECTOR2I (arc_start a)) (to_VECTOR2I (arc_mid a))
    (to_VECTOR2I (arc_end a)) ->
  stored_points_determine_arc (arc_of_points e a).
Proof. intros H. exact H. Qed.

(** What is truncated exactly is truncated within any tolerance. *)
Lemma to_VECTOR2I_truncated (p : point) :
  to_VECTOR2I p = truncated (fst p * 1e6, snd p * 1e6) /\
  computed_within 0.001 p (fst p * 1e6, snd p * 1e6).
Proof.
  split; [reflexivity |].
  split; cbn [fst snd]; rewrite Rminus_diag, Rabs_R0; lra.
Qed.

(** The three points of every corner arc of a board that validation accepts,
    from a radius of 4.25 nm on, are stored pairwise distinct and off one
    line, however the six products are rounded below 0.001 nm. *)
Lemma corner_arcs_truncated_off_line (w h r : R) :
  0.00000425 <= r <= Rmin w h / 2 ->
  Forall
    (fun a =>
       forall s m e : R * R,
         computed_within 0.001 (arc_start a) s ->
         computed_within 0.001 (arc_mid a) m ->
         computed_within 0.001 (arc_end a) e ->
         cross_nm (truncated s) (truncated m) (truncated e) <> 0%Z)
    (corner_arcs w h r).
Proof.
  intros [Hr Hmax]. rewrite corner_arcs_closed_form.
  assert (Hw : r <= w / 2) by (pose proof (Rmin_l w h); lra).
  assert (Hh : r <= h / 2) by (pose proof (Rmin_r w h); lra).
  pose proof inv_sqrt2_close as [Hlo Hhi].
  unfold BOARD_OFFSET_X, BOARD_OFFSET_Y.
  change (r / sqrt 2) with (r * / sqrt 2).
  set (k := r * / sqrt 2) in *.
  assert (Hk : 0.7071 * (r * 1e6) <= k * 1e6 <= 0.70711 * (r * 1e6))
    by (unfold k; split; nra).
  assert (HR : 4.25 <= r * 1e6) by lra.
  assert (Hkr : 0 < k < r) by (unfold k; split; nra).
  repeat apply Forall_cons; [| | | | apply Forall_nil];
    unfold arc_start, arc_mid, arc_end, computed_within; cbn [fst snd];
    intros [sx sy] [mx my] [ex ey]; cbn [fst snd];
    intros [Hsx Hsy] [Hmx Hmy] [Hex Hey];
    pose proof (Rabs_le_inv _ _ Hsx); pose proof (Rabs_le_inv _ _ Hsy);
    pose proof (Rabs_le_inv _ _ Hmx); pose proof (Rabs_le_inv _ _ Hmy);
    pose proof (Rabs_le_inv _ _ Hex); pose proof (Rabs_le_inv _ _ Hey);
    unfold cross_nm, truncated; cbn [vx vy fst snd].
  - (* top left *)
    pose proof (steps_small_large ex mx sx (25.0 * 1e6) (r * 1e6) (k * 1e6)) as Hx.
    pose proof (steps_small_large sy my ey (25.0 * 1e6) (r * 1e6) (k * 1e6)) as Hy.
    assert (Hx' := Hx ltac:(lra) ltac:(lra) ltac:(lra)
                      ltac:(apply Rabs_le; lra) ltac:(apply Rabs_le; lra)
                      ltac:(apply Rabs_le; lra) HR Hk).
    assert (Hy' := Hy ltac:(lra) ltac:(lra) ltac:(lra)
                      ltac:(apply Rabs_le; lra) ltac:(apply Rabs_le; lra)
                      ltac:(apply Rabs_le; lra) HR Hk).
    pose proof (small_steps_product _ _ _ _ Hx' Hy'). lia.
  - (* top right *)
    pose proof (steps_large_small ex mx sx ((25.0 + w - r) * 1e6) (r * 1e6) (k * 1e6))
      as Hx.
    pose proof (steps_small_large ey my sy (25.0 * 1e6) (r * 1e6) (k * 1e6)) as Hy.
    assert (Hx' := Hx ltac:(lra) ltac:(lra) ltac:(lra)
                      ltac:(apply Rabs_le; lra) ltac:(apply Rabs_le; lra)
                      ltac:(apply Rabs_le; lra) HR Hk).
    assert (Hy' := Hy ltac:(lra) ltac:(lra) ltac:(lra)
                      ltac:(apply Rabs_le; lra) ltac:(apply Rabs_le; lra)
                      ltac:(apply Rabs_le; lra) HR Hk).
    pose proof (small_steps_product _ _ _ _ Hx' Hy'). lia.
  - (* bottom right *)
    pose proof (steps_large_small sx mx ex ((25.0 + w - r) * 1e6) (r * 1e6) (k * 1e6))
      as Hx.
    pose proof (steps_large_small ey my sy ((25.0 + h - r) * 1e6) (r * 1e6) (k * 1e6))
      as Hy.
    assert (Hx' := Hx ltac:(lra) ltac:(lra) ltac:(lra)
                      ltac:(apply Rabs_le; lra) ltac:(apply Rabs_le; lra)
                      ltac:(apply Rabs_le; lra) HR Hk).
    assert (Hy' := Hy ltac:(lra) ltac:(lra) ltac:(lra)
                      ltac:(apply Rabs_le; lra) ltac:(apply Rabs_le; lra)
                      ltac:(apply Rabs_le; lra) HR Hk).
    pose proof (small_steps_product _ _ _ _ Hx' Hy'). lia.
  - (* bottom left *)
    pose proof (steps_small_large sx mx ex (25.0 * 1e6) (r * 1e6) (k * 1e6)) as Hx.
    pose proof (steps_large_small sy my ey ((25.0 + h - r) * 1e6) (r * 1e6) (k * 1e6))
      as Hy.
    assert (Hx' := Hx ltac:(lra) ltac:(lra) ltac:(lra)
                      ltac:(apply Rabs_le; lra) ltac:(apply Rabs_le; lra)
                      ltac:(apply Rabs_le; lra) HR Hk).
    assert (Hy' := Hy ltac:(lra) ltac:(lra) ltac:(lra)
                      ltac:(apply Rabs_le; lra) ltac:(apply Rabs_le; lra)
                      ltac:(apply Rabs_le; lra) HR Hk).
    pose proof (small_steps_product _ _ _ _ Hx' Hy'). lia.
Qed.

(** [int] on a value between -1 and 0: Python truncates toward zero. *)
Lemma int_above_minus_one (x : R) : -1 < x <= 0 -> int x = 0%Z.
Proof.
  intros [Hlo Hhi]. unfold int. destruct (Rle_dec 0 x) as [H0 | H0].
  - symmetry. apply Int_part_spec. lra.
  - assert (H : 0%Z = Int_part (- x)) by (apply Int_part_spec; lra).
    rewrite <- H. reflexivity.
Qed.

(** C8, as stated, fails below 4.25 nm.  On a 10 x 10 board with radius
    0.0000001 the three points of the top-left arc are all stored as
    (25000000, 25000000).  On a 100 x 80 board with radius 0.000004 the
    bottom-right arc is stored as (124999996, 105000000),
    (124999998, 104999998), (125000000, 104999996), which are on one line;
    so is, with radius 0.00000424 on a 100.000004241 x 80.000004241 board,
    the arc (125000000, 105000004), (125000002, 105000002),
    (125000004, 105000000).  Outside what validation accepts a larger radius
    fails too: width and height -24.9999959 with radius 0.000005 store the
    bottom-right arc as (0, 4), (2, 2), (4, 0). *)
Lemma tiny_radius_arc_collapses :
  (0 < 0.0000001 <= Rmin 10 10 / 2 /\
   ~ Forall stored_points_determine_arc
       (arcs (Items (create_board_outline empty_board 10 10 0.0000001)))) /\
  (0 < 0.000004 <= Rmin 100 80 / 2 /\
   ~ Forall stored_points_determine_arc
       (arcs (Items (create_board_outline empty_board 100 80 0.000004)))) /\
  (0 < 0.00000424 <= Rmin 100.000004241 80.000004241 / 2 /\
   ~ Forall stored_points_determine_arc
       (arcs (Items (create_board_outline empty_board
                       100.000004241 80.000004241 0.00000424)))) /\
  (0.00000425 <= 0.000005 /\
   ~ Forall stored_points_determine_arc
       (arcs (Items (create_board_outline empty_board
                       (-24.9999959) (-24.9999959) 0.000005)))).
Proof.
  pose proof inv_sqrt2_close as [Hlo Hhi].
  refine (conj (conj _ _) (conj (conj _ _) (conj (conj _ _) (conj _ _)))).
  - unfold Rmin. destruct (Rle_dec 10 10); lra.
  - intros Hall.
    assert (Hne : 0.0000001 <> 0) by lra.
    destruct (create_board_outline_arcs empty_board 10 10 0.0000001 Hne)
      as (added & Hitems & Harcs).
    rewrite Hitems in Hall. cbn [Items empty_board app] in Hall.
    rewrite Harcs, corner_arcs_closed_form in Hall. cbn [map] in Hall.
    apply Forall_inv in Hall. destruct Hall as (Hdiff & _).
    apply Hdiff. unfold arc_of_points, arc_start, arc_mid.
    cbn [GetStart GetArcMid SetWidth SetArcGeometry fst snd].
    unfold to_VECTOR2I, mm_to_nm, BOARD_OFFSET_X, BOARD_OFFSET_Y. cbn [fst snd].
    change (0.0000001 / sqrt 2) with (0.0000001 * / sqrt 2).
    rewrite (int_floor ((25.0 + 0.0000001) * 1e6) 25000000) by lra.
    rewrite (int_floor (25.0 * 1e6) 25000000) by lra.
    rewrite (int_floor ((25.0 + 0.0000001 - 0.0000001 * / sqrt 2) * 1e6) 25000000)
      by lra.
    reflexivity.
  - rewrite Rmin_100_80. lra.
  - intros Hall.
    assert (Hne : 0.000004 <> 0) by lra.
    destruct (create_board_outline_arcs empty_board 100 80 0.000004 Hne)
      as (added & Hitems & Harcs).
    rewrite Hitems in Hall. cbn [Items empty_board app] in Hall.
    rewrite Harcs, corner_arcs_closed_form in Hall. cbn [map] in Hall.
    apply Forall_inv_tail, Forall_inv_tail, Forall_inv in Hall.
    destruct Hall as (_ & _ & _ & Hcross).
    apply Hcross. unfold arc_of_points, arc_start, arc_mid, arc_end.
    cbn [GetStart GetArcMid GetEnd SetWidth SetArcGeometry fst snd].
    unfold to_VECTOR2I, mm_to_nm, BOARD_OFFSET_X, BOARD_OFFSET_Y, cross_nm.
    cbn [fst snd vx vy].
    change (0.000004 / sqrt 2) with (0.000004 * / sqrt 2).
    rewrite (int_floor ((25.0 + 100 - 0.000004) * 1e6) 124999996) by lra.
    rewrite (int_floor ((25.0 + 80) * 1e6) 105000000) by lra.
    rewrite (int_floor ((25.0 + 100 - 0.000004 + 0.000004 * / sqrt 2) * 1e6)
               124999998) by lra.
    rewrite (int_floor ((25.0 + 80 - 0.000004 + 0.000004 * / sqrt 2) * 1e6)
               104999998) by lra.
    rewrite (int_floor ((25.0 + 100) * 1e6) 125000000) by lra.
    rewrite (int_floor ((25.0 + 80 - 0.000004) * 1e6) 104999996) by lra.
    reflexivity.
  - unfold Rmin. destruct (Rle_dec 100.000004241 80.000004241); lra.
  - intros Hall.
    assert (Hne : 0.00000424 <> 0) by lra.
    destruct (create_board_outline_arcs empty_board
                100.000004241 80.000004241 0.00000424 Hne)
      as (added & Hitems & Harcs).
    rewrite Hitems in Hall. cbn [Items empty_board app] in Hall.
    rewrite Harcs, corner_arcs_closed_form in Hall. cbn [map] in Hall.
    apply Forall_inv_tail, Forall_inv_tail, Forall_inv in Hall.
    destruct Hall as (_ & _ & _ & Hcross).
    apply Hcross. unfold arc_of_points, arc_start, arc_mid, arc_end.
    cbn [GetStart GetArcMid GetEnd SetWidth SetArcGeometry fst snd].
    unfold to_VECTOR2I, mm_to_nm, BOARD_OFFSET_X, BOARD_OFFSET_Y, cross_nm.
    cbn [fst snd vx vy].
    change (0.00000424 / sqrt 2) with (0.00000424 * / sqrt 2).
    rewrite (int_floor ((25.0 + 100.000004241 - 0.00000424) * 1e6) 125000000)
      by lra.
    rewrite (int_floor ((25.0 + 80.000004241) * 1e6) 105000004) by lra.
    rewrite (int_floor ((25.0 + 100.000004241 - 0.00000424
                         + 0.00000424 * / sqrt 2) * 1e6) 125000002) by lra.
    rewrite (int_floor ((25.0 + 80.000004241 - 0.00000424
                         + 0.00000424 * / sqrt 2) * 1e6) 105000002) by lra.
    rewrite (int_floor ((25.0 + 100.000004241) * 1e6) 125000004) by lra.
    rewrite (int_floor ((25.0 + 80.000004241 - 0.00000424) * 1e6) 105000000)
      by lra.
    reflexivity.
  - lra.
  - intros Hall.
    assert (Hne : 0.000005 <> 0) by lra.
    destruct (create_board_outline_arcs empty_board
                (-24.9999959) (-24.9999959) 0.000005 Hne)
      as (added & Hitems & Harcs).
    rewrite Hitems in Hall. cbn [Items empty_board app] in Hall.
    rewrite Harcs, corner_arcs_closed_form in Hall. cbn [map] in Hall.
    apply Forall_inv_tail, Forall_inv_tail, Forall_inv in Hall.
    destruct Hall as (_ & _ & _ & Hcross).
    apply Hcross. unfold arc_of_points, arc_start, arc_mid, arc_end.
    cbn [GetStart GetArcMid GetEnd SetWidth SetArcGeometry fst snd].
    unfold to_VECTOR2I, mm_to_nm, BOARD_OFFSET_X, BOARD_OFFSET_Y, cross_nm.
    cbn [fst snd vx vy].
    change (0.000005 / sqrt 2) with (0.000005 * / sqrt 2).
    rewrite (int_above_minus_one ((25.0 + -24.9999959 - 0.000005) * 1e6)) by lra.
    rewrite (int_floor ((25.0 + -24.9999959) * 1e6) 4) by lra.
    rewrite (int_floor ((25.0 + -24.9999959 - 0.000005
                         + 0.000005 * / sqrt 2) * 1e6) 2) by lra.
    reflexivity.
Qed.

(** C8, amended.  On a board that validation accepts, from a radius of
    4.25 nm on ([0.00000425 <= r <= min(w,h)/2]), the three points stored for
    each of the four corner arcs are pairwise distinct and not on one line.
    This does not hang on the last digits of the arithmetic: the same holds
    of the truncations of any six products within 0.001 nm of the exact
    ones. *)
Theorem corner_arc_points_determine_arc (board : BOARD) (w h r : R) :
  0.00000425 <= r <= Rmin w h / 2 ->
  (exists added,
     Items (create_board_outline board w h r) = Items board ++ added /\
     arcs added =
       map (arc_of_points (GetLayerID board "Edge.Cuts"%string))
         (corner_arcs w h r) /\
     List.length (arcs added) = 4%nat /\
     Forall stored_points_determine_arc (arcs added)) /\
  Forall
    (fun a =>
       forall s m e : R * R,
         computed_within 0.001 (arc_start a) s ->
         computed_within 0.001 (arc_mid a) m ->
         computed_within 0.001 (arc_end a) e ->
         vectors_determine_arc (truncated s) (truncated m) (truncated e))
    (corner_arcs w h r).
Proof.
  intros Hr.
  pose proof (corner_arcs_truncated_off_line w h r Hr) as Hoff.
  split.
  - assert (Hne : r <> 0) by lra.
    destruct (create_board_outline_arcs board w h r Hne) as (added & Hitems & Harcs).
    exists added. split; [exact Hitems |]. split; [exact Harcs |].
    rewrite Harcs. split; [reflexivity |].
    apply Forall_map.
    eapply Forall_impl; [| exact Hoff].
    intros a Ha. apply arc_of_points_determined.
    destruct (to_VECTOR2I_truncated (arc_start a)) as [-> Hs].
    destruct (to_VECTOR2I_truncated (arc_mid a)) as [-> Hm].
    destruct (to_VECTOR2I_truncated (arc_end a)) as [-> He].
    apply off_line_determine, Ha; assumption.
  - eapply Forall_impl; [| exact Hoff].
    intros a Ha s m e Hs Hm He. apply off_line_determine, Ha; assumption.
Qed.

Lemma corner_arc_points_determine_arc_witness :
  0.00000425 <= 3 <= Rmin 100 80 / 2 /\
  List.length (arcs (Items (create_board_outline empty_board 100 80 3))) = 4%nat /\
  Forall stored_points_determine_arc
    (arcs (Items (create_board_outline empty_board 100 80 3))).
Proof.
  assert (H : 0.00000425 <= 3 <= Rmin 100 80 / 2) by (rewrite Rmin_100_80; lra).
  destruct (corner_arc_points_determine_arc empty_board 100 80 3 H)
    as ((added & Hitems & _ & Hlen & Hnm) & _).
  rewrite Hitems.
  exact (conj H (conj Hlen Hnm)).
Defined.

(** ** Validation (C3) *)

Lemma collect_positions_inr (entries : list MountingHoleEntry) :
  forall acc l,
    collect_positions entries acc = inr l <->
    exists ps, l = acc ++ ps /\ map entry_texts entries = map position_texts ps.
Proof.
  induction entries as [| entry rest IH]; intros acc l; cbn [collect_positions map].
  - split.
    + intros H. injection H as <-. exists []. now rewrite app_nil_r.
    + intros (ps & -> & Hps). destruct ps; [| discriminate].
      now rewrite app_nil_r.
  - unfold get_position, entry_texts at 1.
    destruct (x_ctrl entry) as [x |], (y_ctrl entry) as [y |]; cbn [float bind ret raise].
    + rewrite IH. split.
      * intros (ps & -> & Hps). exists ((x, y) :: ps).
        split; [now rewrite <- app_assoc | cbn; now rewrite Hps].
      * intros (ps & -> & Hps). destruct ps as [| [x' y'] ps]; [discriminate |].
        cbn in Hps. injection Hps as -> -> Hps.
        exists ps. split; [now rewrite <- app_assoc | exact Hps].
    + split; [discriminate |].
      intros (ps & _ & Hps). destruct ps; discriminate.
    + split; [discriminate |].
      intros (ps & _ & Hps). destruct ps; discriminate.
    + split; [discriminate |].
      intros (ps & _ & Hps). destruct ps; discriminate.
Qed.

(** What [get_parameters] accepts: every text converts and the four tests
    pass. *)
Lemma get_parameters_accepts (dlg : BoardOutlineDialog) (w h r d a : R)
    (positions : list point) :
  width_ctrl dlg = Some w ->
  height_ctrl dlg = Some h ->
  radius_ctrl dlg = Some r ->
  hole_diameter_ctrl dlg = Some d ->
  annular_ring_ctrl dlg = Some a ->
  collect_positions (hole_entries dlg) [] = inr positions ->
  0 < w -> 0 < h -> 0 <= r <= Rmin w h / 2 -> 0 < d ->
  get_parameters dlg =
    Some {| width := w; height := h; corner_radius := r; hole_diameter := d;
            annular_ring := a; hole_positions := positions |}.
Proof.
  intros Hw Hh Hr Hd Ha Hpos Hw0 Hh0 [Hr0 Hr1] Hd0.
  unfold get_parameters, get_parameters_try.
  rewrite Hw, Hh, Hr, Hd, Ha. cbn [float bind ret].
  rewrite Hpos. cbn [bind].
  rewrite (proj2 (Rleb_false w 0) Hw0), (proj2 (Rleb_false h 0) Hh0).
  rewrite (proj2 (Rltb_false r 0) Hr0), (proj2 (Rgtb_false r _) Hr1).
  rewrite (proj2 (Rleb_false d 0) Hd0).
  reflexivity.
Qed.

Lemma get_parameters_some (dlg : BoardOutlineDialog) (params : Params) :
  get_parameters dlg = Some params <-> collected dlg params /\ in_range params.
Proof.
  split.
  - unfold get_parameters, get_parameters_try, collected, in_range.
    destruct (width_ctrl dlg) as [w |]; [| discriminate].
    destruct (height_ctrl dlg) as [h |]; [| discriminate].
    destruct (radius_ctrl dlg) as [r |]; [| discriminate].
    destruct (hole_diameter_ctrl dlg) as [d |]; [| discriminate].
    destruct (annular_ring_ctrl dlg) as [a |]; [| discriminate].
    cbn [float bind ret].
    destruct (collect_positions (hole_entries dlg) []) as [e | ps] eqn:Hps;
      [discriminate |].
    cbn [bind].
    destruct (Rleb w 0) eqn:Hw; [discriminate |].
    destruct (Rleb h 0) eqn:Hh; [discriminate |].
    destruct (Rltb r 0) eqn:Hr; [discriminate |].
    destruct (Rgtb r (Rmin w h / 2)) eqn:Hm; [discriminate |].
    destruct (Rleb d 0) eqn:Hd; [discriminate |].
    cbn [orb raise ret]. intros H. injection H as <-. cbn.
    apply Rleb_false in Hw, Hh, Hd. apply Rltb_false in Hr. apply Rgtb_false in Hm.
    apply collect_positions_inr in Hps. destruct Hps as (ps' & -> & Hps).
    repeat split; try assumption; lra.
  - intros [(Hw & Hh & Hr & Hd & Ha & Hps) (Hw0 & Hh0 & Hr0 & Hd0)].
    destruct params as [w h r d a ps]. cbn in *.
    apply get_parameters_accepts; try assumption; try lra.
    apply collect_positions_inr. exists ps. split; [reflexivity | exact Hps].
Qed.

Lemma sample_dialog_accepted : get_parameters sample_dialog = Some sample_params.
Proof.
  apply get_parameters_accepts; try reflexivity; try lra.
  rewrite Rmin_100_80. lra.
Qed.

(** *** Comparisons of floats and the order of the values *)












(** *** The validation on floats *)





(** *** Numbers among the floats *)







(** ** Mounting holes (C6, C9) *)

Lemma create_mounting_hole_Items (board : BOARD) (x y d a : R) :
  Items (fst (create_mounting_hole board x y d a)) =
  Items board ++ [Footprint (snd (create_mounting_hole board x y d a))].
Proof. reflexivity. Qed.







(** ** Validation comes first (C7) *)

(** C7.  When [get_parameters] yields no parameter set, [Run] returns the
    board as it was: no shape and no footprint is added, whatever the answer
    to the dialog. *)
Theorem run_rejected_leaves_board (board : BOARD) (dlg : BoardOutlineDialog)
    (answer : wx.ModalResult) :
  get_parameters dlg = None ->
  Run board dlg answer = board.
Proof.
  intros Hnone. unfold Run. rewrite Hnone. destruct answer; reflexivity.
Qed.

Lemma run_rejected_leaves_board_witness :
  get_parameters bad_width_dialog = None /\
  Run empty_board bad_width_dialog wx.ID_OK = empty_board.
Proof.
  exact (conj eq_refl
           (run_rejected_leaves_board empty_board bad_width_dialog wx.ID_OK
              eq_refl)).
Defined.

(** * Further properties of the code *)

(** ** Conversion to nanometres *)

Lemma int_opp (x : R) : int (- x) = (- int x)%Z.
Proof.
  unfold int.
  destruct (Rle_dec 0 (- x)) as [Hn | Hn], (Rle_dec 0 x) as [Hp | Hp].
  - assert (x = 0) by lra. subst x. rewrite Ropp_0.
    assert (H : 0%Z = Int_part 0) by (apply Int_part_spec; lra).
    rewrite <- H. reflexivity.
  - lia.
  - rewrite Ropp_involutive. reflexivity.
  - lra.
Qed.

Lemma int_monotone (x y : R) : x <= y -> (int x <= int y)%Z.
Proof.
  intros Hxy.
  pose proof (int_err x) as Hx. pose proof (int_err y) as Hy.
  assert (Hsx : 0 <= x -> IZR (int x) <= x).
  { intros H. unfold int. destruct (Rle_dec 0 x); [| contradiction].
    pose proof (base_Int_part x). lra. }
  assert (Hsy : 0 <= y -> IZR (int y) <= y).
  { intros H. unfold int. destruct (Rle_dec 0 y); [| contradiction].
    pose proof (base_Int_part y). lra. }
  assert (Hnx : x < 0 -> x <= IZR (int x)).
  { intros H. unfold int. destruct (Rle_dec 0 x); [lra |].
    pose proof (base_Int_part (- x)). rewrite opp_IZR. lra. }
  assert (Hny : y < 0 -> y <= IZR (int y)).
  { intros H. unfold int. destruct (Rle_dec 0 y); [lra |].
    pose proof (base_Int_part (- y)). rewrite opp_IZR. lra. }
  apply Z.lt_succ_r. apply lt_IZR. rewrite succ_IZR.
  destruct (Rle_dec 0 x) as [H0x | H0x]; destruct (Rle_dec 0 y) as [H0y | H0y].
  - specialize (Hsx H0x). lra.
  - lra.
  - assert (x < 0) by lra. specialize (Hnx H). specialize (Hsy H0y).
    assert (Hi : (int x <= 0)%Z).
    { apply Z.lt_succ_r. apply lt_IZR. rewrite succ_IZR. lra. }
    assert (Hj : (0 <= int y)%Z).
    { apply Z.lt_succ_r. apply lt_IZR. rewrite succ_IZR. lra. }
    apply IZR_le in Hi, Hj. lra.
  - assert (Hx0 : x < 0) by lra. assert (Hy0 : y < 0) by lra.
    specialize (Hnx Hx0). specialize (Hny Hy0).
    (* both negative: int is the ceiling *)
    assert (Hcx : IZR (int x) < x + 1) by lra.
    destruct (Z_lt_le_dec (int y) (int x)) as [Hlt | Hle].
    + exfalso. assert (Hz : (int y + 1 <= int x)%Z) by lia.
      apply IZR_le in Hz. rewrite plus_IZR in Hz. lra.
    + apply IZR_le in Hle. lra.
Qed.

(** X1.  [mm_to_nm] truncates toward zero: the stored value has the sign of
    the length, is never larger in size than the length in nanometres, and
    falls short of it by less than one nanometre; a negated length gives the
    negated value. *)
Theorem mm_to_nm_toward_zero (mm : R) :
  let nm := IZR (mm_to_nm mm) in
  0 <= nm * mm /\
  Rabs nm <= Rabs (mm * 1e6) < Rabs nm + 1 /\
  mm_to_nm (- mm) = (- mm_to_nm mm)%Z.
Proof.
  intros nm. unfold nm, mm_to_nm. clear nm.
  split; [| split].
  - unfold int. destruct (Rle_dec 0 (mm * 1e6)) as [H | H].
    + pose proof (base_Int_part (mm * 1e6)) as [Hlo Hhi].
      assert (Hz : (0 <= Int_part (mm * 1e6))%Z).
      { apply Z.lt_succ_r. apply lt_IZR. rewrite succ_IZR. lra. }
      apply IZR_le in Hz. nra.
    + pose proof (base_Int_part (- (mm * 1e6))) as [Hlo Hhi].
      assert (Hz : (0 <= Int_part (- (mm * 1e6)))%Z).
      { apply Z.lt_succ_r. apply lt_IZR. rewrite succ_IZR. lra. }
      apply IZR_le in Hz. rewrite opp_IZR. nra.
  - unfold int. destruct (Rle_dec 0 (mm * 1e6)) as [H | H].
    + pose proof (base_Int_part (mm * 1e6)) as [Hlo Hhi].
      assert (Hz : (0 <= Int_part (mm * 1e6))%Z).
      { apply Z.lt_succ_r. apply lt_IZR. rewrite succ_IZR. lra. }
      apply IZR_le in Hz.
      rewrite !Rabs_right by lra. lra.
    + pose proof (base_Int_part (- (mm * 1e6))) as [Hlo Hhi].
      assert (Hz : (0 <= Int_part (- (mm * 1e6)))%Z).
      { apply Z.lt_succ_r. apply lt_IZR. rewrite succ_IZR. lra. }
      apply IZR_le in Hz. rewrite opp_IZR.
      rewrite (Rabs_left (mm * 1e6)) by lra.
      rewrite Rabs_left1 by lra. lra.
  - replace (- mm * 1e6) with (- (mm * 1e6)) by ring. apply int_opp.
Qed.

(** X2.  [mm_to_nm] keeps the order of lengths: a length that is not larger
    is stored as a value that is not larger. *)
Theorem mm_to_nm_monotone (a b : R) :
  a <= b -> (mm_to_nm a <= mm_to_nm b)%Z.
Proof.
  intros Hab. unfold mm_to_nm. apply int_monotone. lra.
Qed.

Lemma mm_to_nm_monotone_witness :
  25.0 <= 28.5 /\ (mm_to_nm 25.0 <= mm_to_nm 28.5)%Z.
Proof.
  assert (H : 25.0 <= 28.5) by lra.
  exact (conj H (mm_to_nm_monotone 25.0 28.5 H)).
Defined.

(** ** What the outline is made of *)

Lemma create_board_outline_Items (board : BOARD) (w h r : R) :
  Items (create_board_outline board w h r) =
  Items board ++
  map Drawing (outline_shapes (GetLayerID board "Edge.Cuts"%string) w h r).
Proof.
  unfold outline_shapes. destruct (Req_dec_T r 0) as [-> | Hne].
  - rewrite Reqb_refl. apply create_board_outline_plain.
  - rewrite (Reqb_neq _ _ Hne). now apply create_board_outline_rounded.
Qed.




Lemma footprints_of_app (l l' : list BOARD_ITEM) :
  footprints_of (l ++ l') = footprints_of l ++ footprints_of l'.
Proof.
  induction l as [| [s | f] l IH]; cbn; [reflexivity | exact IH | now rewrite IH].
Qed.

Lemma drawings_of_app (l l' : list BOARD_ITEM) :
  drawings_of (l ++ l') = drawings_of l ++ drawings_of l'.
Proof.
  induction l as [| [s | f] l IH]; cbn; [reflexivity | now rewrite IH | exact IH].
Qed.

Lemma footprints_of_drawings (shapes : list PCB_SHAPE) :
  footprints_of (map Drawing shapes) = [].
Proof. induction shapes; [reflexivity | exact IHshapes]. Qed.

Lemma footprints_of_footprints (fps : list FOOTPRINT) :
  footprints_of (map Footprint fps) = fps.
Proof. induction fps; [reflexivity | cbn; now rewrite IHfps]. Qed.

Lemma drawings_of_drawings (shapes : list PCB_SHAPE) :
  drawings_of (map Drawing shapes) = shapes.
Proof. induction shapes; [reflexivity | cbn; now rewrite IHshapes]. Qed.

Lemma drawings_of_footprints (fps : list FOOTPRINT) :
  drawings_of (map Footprint fps) = [].
Proof. induction fps; [reflexivity | exact IHfps]. Qed.


(** X4.  [create_board_outline] leaves the footprints of the board and its
    layer table as they are, so the number of footprints whose reference
    starts with H is the same before and after. *)
Theorem outline_keeps_footprints (board : BOARD) (w h r : R) :
  GetFootprints (create_board_outline board w h r) = GetFootprints board /\
  GetLayerID (create_board_outline board w h r) = GetLayerID board /\
  count_H (create_board_outline board w h r) = count_H board.
Proof.
  assert (Hf : GetFootprints (create_board_outline board w h r) = GetFootprints board).
  { unfold GetFootprints. rewrite create_board_outline_Items, footprints_of_app.
    rewrite footprints_of_drawings. apply app_nil_r. }
  split; [exact Hf |]. split; [apply create_board_outline_GetLayerID |].
  unfold count_H. now rewrite Hf.
Qed.

(** X5.  For [0 < r <= min(w,h)/2], in exact arithmetic, every point that
    defines the rounded outline (the ends of the four edges, and the start,
    middle and end of the four arcs) lies in the rectangle of width [w] and
    height [h] at the board offset. *)
Theorem rounded_outline_within_rectangle (w h r : R) :
  0 < r <= Rmin w h / 2 ->
  Forall (on_sheet_rectangle w h) (outline_points w h r).
Proof.
  intros [Hr Hmax].
  assert (Hw : 2 * r <= w) by (pose proof (Rmin_l w h); lra).
  assert (Hh : 2 * r <= h) by (pose proof (Rmin_r w h); lra).
  pose proof (div_sqrt2_bounds r Hr) as Hu.
  unfold outline_points, edge_endpoints, edge_lines.
  rewrite corner_arcs_closed_form.
  unfold on_sheet_rectangle, arc_start, arc_mid, arc_end.
  cbn [flat_map app fst snd].
  generalize BOARD_OFFSET_X BOARD_OFFSET_Y. intros ox oy.
  set (u := r / sqrt 2) in *.
  repeat apply Forall_cons; [.. | apply Forall_nil]; cbn [fst snd]; lra.
Qed.

Lemma rounded_outline_within_rectangle_witness :
  0 < 3 <= Rmin 100 80 / 2 /\
  Forall (on_sheet_rectangle 100 80) (outline_points 100 80 3).
Proof.
  assert (H : 0 < 3 <= Rmin 100 80 / 2) by (rewrite Rmin_100_80; lra).
  exact (conj H (rounded_outline_within_rectangle 100 80 3 H)).
Defined.

(** X6.  When the radius is half the width, the top and the bottom edge are
    still added but have no length: each starts and ends at the same stored
    point (exact arithmetic).  The same holds of the left and right edge when
    the radius is half the height.  Validation accepts such a radius: a
    dialog whose texts convert to a width and a height above 0, the radius
    min(w, h)/2 and a hole diameter above 0 yields its parameter set. *)
Theorem full_radius_edges_have_no_length (board : BOARD) (w h r : R) :
  r <> 0 ->
  (exists top right_ bottom left_ corner_shapes,
     Items (create_board_outline board w h r) =
       Items board ++
       map Drawing ([top; right_; bottom; left_] ++ corner_shapes) /\
     (w = 2 * r -> GetStart top = GetEnd top /\ GetStart bottom = GetEnd bottom) /\
     (h = 2 * r -> GetStart right_ = GetEnd right_ /\ GetStart left_ = GetEnd left_)) /\
  (forall (dlg : BoardOutlineDialog) (params : Params),
     collected dlg params ->
     width params = w -> height params = h -> corner_radius params = r ->
     0 < w -> 0 < h -> r = Rmin w h / 2 -> 0 < hole_diameter params ->
     get_parameters dlg = Some params /\ (w = 2 * r \/ h = 2 * r)).
Proof.
  intros Hne. split.
  - do 5 eexists.
    split; [apply (create_board_outline_rounded board w h r Hne) |].
    split; intros ->; split;
      cbn [GetStart GetEnd outline_segment SetWidth SetEnd SetStart];
      unfold to_VECTOR2I; cbn [fst snd].
    + now replace (BOARD_OFFSET_X + 2 * r - r) with (BOARD_OFFSET_X + r) by lra.
    + now replace (BOARD_OFFSET_X + 2 * r - r) with (BOARD_OFFSET_X + r) by lra.
    + now replace (BOARD_OFFSET_Y + 2 * r - r) with (BOARD_OFFSET_Y + r) by lra.
    + now replace (BOARD_OFFSET_Y + 2 * r - r) with (BOARD_OFFSET_Y + r) by lra.
  - intros dlg params Hc Hw Hh Hr Hw0 Hh0 Hhalf Hd. split.
    + apply get_parameters_some. split; [exact Hc |].
      unfold in_range. rewrite Hw, Hh, Hr.
      assert (Hmin : 0 < Rmin w h) by (apply Rmin_glb_lt; assumption).
      repeat split; lra.
    + unfold Rmin in Hhalf. destruct (Rle_dec w h); [left | right]; lra.
Qed.

Lemma full_radius_edges_have_no_length_witness :
  5 <> 0 /\
  (exists top right_ bottom left_ corner_shapes,
     Items (create_board_outline empty_board 10 20 5) =
       Items empty_board ++
       map Drawing ([top; right_; bottom; left_] ++ corner_shapes) /\
     GetStart top = GetEnd top /\ GetStart bottom = GetEnd bottom) /\
  get_parameters
    {| width_ctrl := Some 10; height_ctrl := Some 20; radius_ctrl := Some 5;
       hole_diameter_ctrl := Some 3.4; annular_ring_ctrl := Some 1.0;
       hole_entries := [] |} =
  Some {| width := 10; height := 20; corner_radius := 5; hole_diameter := 3.4;
          annular_ring := 1.0; hole_positions := [] |}.
Proof.
  assert (H : 5 <> 0) by lra.
  assert (Hw : 10 = 2 * 5) by lra.
  destruct (full_radius_edges_have_no_length empty_board 10 20 5 H)
    as ((top & right_ & bottom & left_ & cs & Hitems & Htop & _) & Haccepted).
  split; [exact H |]. split.
  - exact (ex_intro _ top (ex_intro _ right_ (ex_intro _ bottom
             (ex_intro _ left_ (ex_intro _ cs (conj Hitems (Htop Hw))))))).
  - apply Haccepted; try reflexivity; try lra.
    + repeat split.
    + unfold Rmin. destruct (Rle_dec 10 20); lra.
    + cbn. lra.
Defined.

(** ** References of the mounting holes, and what [Run] adds *)

Lemma H_reference_prefix (n : nat) : String.prefix "H" (H_reference n) = true.
Proof.
  unfold H_reference. cbn [append String.prefix].
  match goal with
  | |- context [Ascii.ascii_dec ?a ?b] =>
      destruct (Ascii.ascii_dec a b) as [_ | Hne]; [| now contradiction Hne]
  end.
  now destruct (NilEmpty.string_of_uint (Nat.to_uint n)).
Qed.

Lemma H_reference_inj (n m : nat) : H_reference n = H_reference m -> n = m.
Proof.
  unfold H_reference. cbn [append]. intros H. injection H as H.
  apply DecimalNat.Unsigned.to_uint_inj.
  assert (Hs : Some (Nat.to_uint n) = Some (Nat.to_uint m)).
  { rewrite <- (NilEmpty.usu (Nat.to_uint n)), <- (NilEmpty.usu (Nat.to_uint m)).
    now rewrite H. }
  now injection Hs.
Qed.

Lemma count_H_Add_drawing (board : BOARD) (s : PCB_SHAPE) :
  count_H (Add (Drawing s) board) = count_H board.
Proof.
  unfold count_H, GetFootprints, Add. cbn [Items].
  rewrite footprints_of_app. cbn. now rewrite app_nil_r.
Qed.

Lemma count_H_Add_H (board : BOARD) (f : FOOTPRINT) :
  String.prefix "H" (GetReference f) = true ->
  count_H (Add (Footprint f) board) = (count_H board + 1)%nat.
Proof.
  intros Hf. unfold count_H, GetFootprints, Add. cbn [Items].
  rewrite footprints_of_app, filter_app, length_app. cbn. now rewrite Hf.
Qed.

Lemma create_mounting_hole_count_H (board : BOARD) (x y d a : R) :
  count_H (fst (create_mounting_hole board x y d a)) = (count_H board + 1)%nat.
Proof. apply count_H_Add_H. apply H_reference_prefix. Qed.

Lemma create_mounting_hole_GetLayerID (board : BOARD) (x y d a : R) :
  GetLayerID (fst (create_mounting_hole board x y d a)) = GetLayerID board.
Proof. reflexivity. Qed.

(** The loop of [Run]: the footprints it adds, with their references. *)
Lemma create_mounting_holes_references (params : Params) :
  forall positions board,
  exists fps,
    Items (fold_left
             (fun board '(x, y) =>
                fst (create_mounting_hole board x y
                       (hole_diameter params) (annular_ring params)))
             positions board) = Items board ++ map Footprint fps /\
    map GetReference fps =
      map H_reference (seq (count_H board + 1) (List.length positions)) /\
    Forall (fun f => GetValue f = "MountingHole"%string) fps /\
    GetLayerID (fold_left
             (fun board '(x, y) =>
                fst (create_mounting_hole board x y
                       (hole_diameter params) (annular_ring params)))
             positions board) = GetLayerID board.
Proof.
  induction positions as [| [x y] rest IH]; intros board.
  - exists []. cbn. rewrite app_nil_r. repeat split. constructor.
  - cbn [fold_left List.length seq map].
    destruct (IH (fst (create_mounting_hole board x y
                         (hole_diameter params) (annular_ring params))))
      as (fps & Hitems & Hrefs & Hval & Hlayer).
    exists (snd (create_mounting_hole board x y
                   (hole_diameter params) (annular_ring params)) :: fps).
    rewrite create_mounting_hole_count_H in Hrefs.
    split; [| split; [| split]].
    + rewrite Hitems, create_mounting_hole_Items, <- app_assoc. reflexivity.
    + cbn [map]. f_equal.
      replace (S (count_H board + 1)) with (count_H board + 1 + 1)%nat by lia.
      exact Hrefs.
    + constructor; [reflexivity | exact Hval].
    + rewrite Hlayer. reflexivity.
Qed.

Lemma NoDup_H_references (start len : nat) :
  NoDup (map H_reference (seq start len)).
Proof.
  assert (Hseq : NoDup (seq start len)) by apply seq_NoDup.
  induction Hseq as [| n l Hnotin Hnodup IH]; cbn [map]; constructor.
  - intros Hin. apply in_map_iff in Hin. destruct Hin as (m & Heq & Hm).
    apply H_reference_inj in Heq. subst m. contradiction.
  - exact IH.
Qed.

(** X7.  When the dialog validates to [params] and is confirmed, the
    footprints [Run] adds are referenced, in order, H(n+1), H(n+2), ...,
    where [n] is the number of footprints already on the board whose
    reference starts with H; these references are pairwise distinct, and each
    footprint has the value MountingHole. *)
Theorem run_numbers_mounting_holes (board : BOARD) (dlg : BoardOutlineDialog)
    (params : Params) :
  get_parameters dlg = Some params ->
  exists fps,
    GetFootprints (Run board dlg wx.ID_OK) = GetFootprints board ++ fps /\
    map GetReference fps =
      map H_reference
        (seq (count_H board + 1) (List.length (hole_positions params))) /\
    NoDup (map GetReference fps) /\
    Forall (fun f => GetValue f = "MountingHole"%string) fps.
Proof.
  intros Hp. unfold Run. rewrite Hp. unfold create_mounting_holes.
  set (outlined := create_board_outline board (width params) (height params)
                     (corner_radius params)).
  destruct (create_mounting_holes_references params (hole_positions params) outlined)
    as (fps & Hitems & Hrefs & Hval & _).
  assert (Hc : count_H outlined = count_H board).
  { unfold count_H, GetFootprints, outlined.
    rewrite create_board_outline_Items, footprints_of_app, footprints_of_drawings.
    now rewrite app_nil_r. }
  rewrite Hc in Hrefs.
  exists fps. split; [| split; [exact Hrefs | split; [| exact Hval]]].
  - unfold GetFootprints. rewrite Hitems, footprints_of_app, footprints_of_footprints.
    unfold outlined.
    rewrite create_board_outline_Items, footprints_of_app, footprints_of_drawings.
    now rewrite app_nil_r.
  - rewrite Hrefs. apply NoDup_H_references.
Qed.

Lemma run_numbers_mounting_holes_witness :
  get_parameters sample_dialog = Some sample_params /\
  exists fps,
    GetFootprints (Run empty_board sample_dialog wx.ID_OK) =
      GetFootprints empty_board ++ fps /\
    map GetReference fps =
      map H_reference
        (seq (count_H empty_board + 1) (List.length (hole_positions sample_params))) /\
    NoDup (map GetReference fps) /\
    Forall (fun f => GetValue f = "MountingHole"%string) fps.
Proof.
  exact (conj sample_dialog_accepted
           (run_numbers_mounting_holes empty_board sample_dialog sample_params
              sample_dialog_accepted)).
Defined.

(** What [Run] adds once the dialog is accepted. *)
Lemma Run_accepted_Items (board : BOARD) (dlg : BoardOutlineDialog)
    (params : Params) :
  get_parameters dlg = Some params ->
  exists fps,
    Items (Run board dlg wx.ID_OK) =
      Items board ++
      map Drawing
        (outline_shapes (GetLayerID board "Edge.Cuts"%string)
           (width params) (height params) (corner_radius params)) ++
      map Footprint fps /\
    List.length fps = List.length (hole_positions params) /\
    map GetReference fps =
      map H_reference
        (seq (count_H board + 1) (List.length (hole_positions params))) /\
    GetLayerID (Run board dlg wx.ID_OK) = GetLayerID board.
Proof.
  intros Hp. unfold Run. rewrite Hp. unfold create_mounting_holes.
  set (outlined := create_board_outline board (width params) (height params)
                     (corner_radius params)).
  destruct (create_mounting_holes_references params (hole_positions params) outlined)
    as (fps & Hitems & Hrefs & _ & Hlayer).
  assert (Hc : count_H outlined = count_H board).
  { unfold count_H, GetFootprints, outlined.
    rewrite create_board_outline_Items, footprints_of_app, footprints_of_drawings.
    now rewrite app_nil_r. }
  rewrite Hc in Hrefs.
  exists fps. split; [| split; [| split]].
  - rewrite Hitems. unfold outlined.
    rewrite create_board_outline_Items, <- app_assoc. reflexivity.
  - apply (f_equal (@List.length _)) in Hrefs.
    now rewrite !length_map, length_seq in Hrefs.
  - exact Hrefs.
  - rewrite Hlayer. apply create_board_outline_GetLayerID.
Qed.







(** ** Which error [get_parameters] reports *)

Lemma collect_positions_inl (entries : list MountingHoleEntry) :
  forall acc e,
    collect_positions entries acc = inl e ->
    exists entry, In entry entries /\ e = InvalidPosition (index entry + 1).
Proof.
  induction entries as [| entry rest IH]; intros acc e; cbn [collect_positions].
  - discriminate.
  - destruct (get_position entry) as [pos |].
    + intros H. destruct (IH _ _ H) as (entry' & Hin & ->).
      exists entry'. split; [now right | reflexivity].
    + intros H. injection H as <-. exists entry. split; [now left | reflexivity].
Qed.

Lemma collect_positions_first_bad (good rest : list MountingHoleEntry)
    (bad : MountingHoleEntry) :
  Forall (fun entry => get_position entry <> None) good ->
  get_position bad = None ->
  forall acc,
    collect_positions (good ++ bad :: rest) acc =
    inl (InvalidPosition (index bad + 1)).
Proof.
  intros Hgood Hbad. induction Hgood as [| entry good Hentry _ IH]; intros acc.
  - cbn. now rewrite Hbad.
  - cbn [app collect_positions].
    destruct (get_position entry) as [pos |]; [apply IH | contradiction].
Qed.

Lemma well_numbered_middle (good rest : list MountingHoleEntry)
    (bad : MountingHoleEntry) :
  well_numbered (good ++ bad :: rest) -> index bad = List.length good.
Proof.
  unfold well_numbered. intros H.
  apply (f_equal (fun l => nth (List.length good) l 0%nat)) in H.
  rewrite map_app in H. cbn [map] in H.
  rewrite <- (length_map index good) in H at 1.
  rewrite nth_middle in H. rewrite H.
  rewrite seq_nth; [reflexivity |].
  rewrite length_app. cbn. lia.
Qed.

(** X11.  [get_parameters] fails with the conversion error of [float]
    exactly when one of the five numeric texts (width, height, corner radius,
    hole diameter, annular ring) does not convert; such a text is reported
    before any hole position and before any range is looked at. *)
Theorem conversion_error_iff (dlg : BoardOutlineDialog) :
  get_parameters_try dlg = inl CouldNotConvert <->
  width_ctrl dlg = None \/ height_ctrl dlg = None \/ radius_ctrl dlg = None \/
  hole_diameter_ctrl dlg = None \/ annular_ring_ctrl dlg = None.
Proof.
  unfold get_parameters_try.
  destruct (width_ctrl dlg) as [w |]; [| split; [now left | reflexivity]].
  destruct (height_ctrl dlg) as [h |]; [| split; [now right; left | reflexivity]].
  destruct (radius_ctrl dlg) as [r |];
    [| split; [now right; right; left | reflexivity]].
  destruct (hole_diameter_ctrl dlg) as [d |];
    [| split; [now right; right; right; left | reflexivity]].
  destruct (annular_ring_ctrl dlg) as [a |];
    [| split; [now right; right; right; right | reflexivity]].
  cbn [float bind ret].
  split; [| intros [H | [H | [H | [H | H]]]]; discriminate].
  destruct (collect_positions (hole_entries dlg) []) as [e | ps] eqn:Hps; cbn [bind].
  - intros H. injection H as ->.
    destruct (collect_positions_inl _ _ _ Hps) as (entry & _ & Habs). discriminate.
  - destruct (Rleb w 0 || Rleb h 0); [discriminate |].
    destruct (Rltb r 0); [discriminate |].
    destruct (Rgtb r (Rmin w h / 2)); [discriminate |].
    destruct (Rleb d 0); discriminate.
Qed.

(** X12.  When the five numeric texts convert, the first hole entry whose
    position does not convert decides the error, whatever the ranges of the
    numbers: [get_parameters] fails with the invalid-position error carrying
    that entry's number plus one, and for entries numbered in order this is
    the place of the entry in the list, counted from 1. *)
Theorem first_bad_hole_is_reported (dlg : BoardOutlineDialog)
    (w h r d a : R) (good rest : list MountingHoleEntry) (bad : MountingHoleEntry) :
  width_ctrl dlg = Some w -> height_ctrl dlg = Some h ->
  radius_ctrl dlg = Some r -> hole_diameter_ctrl dlg = Some d ->
  annular_ring_ctrl dlg = Some a ->
  hole_entries dlg = good ++ bad :: rest ->
  Forall (fun entry => get_position entry <> None) good ->
  get_position bad = None ->
  get_parameters_try dlg = inl (InvalidPosition (index bad + 1)) /\
  (well_numbered (hole_entries dlg) ->
   get_parameters_try dlg = inl (InvalidPosition (List.length good + 1))).
Proof.
  intros Hw Hh Hr Hd Ha Hentries Hgood Hbad.
  assert (Hres : get_parameters_try dlg = inl (InvalidPosition (index bad + 1))).
  { unfold get_parameters_try. rewrite Hw, Hh, Hr, Hd, Ha, Hentries.
    cbn [float bind ret].
    now rewrite (collect_positions_first_bad good rest bad Hgood Hbad). }
  split; [exact Hres |].
  intros Hnum. rewrite Hentries in Hnum.
  now rewrite <- (well_numbered_middle good rest bad Hnum).
Qed.

Lemma first_bad_hole_is_reported_witness :
  get_parameters_try bad_second_hole_dialog = inl (InvalidPosition 2).
Proof.
  assert (Hnum : well_numbered (hole_entries bad_second_hole_dialog))
    by reflexivity.
  assert (Hgood : Forall (fun entry => get_position entry <> None)
                    [ {| index := 0; x_ctrl := Some 5; y_ctrl := Some 5 |} ]).
  { constructor; [discriminate | constructor]. }
  exact (proj2 (first_bad_hole_is_reported bad_second_hole_dialog
                  100 80 3 3.4 1.0
                  [ {| index := 0; x_ctrl := Some 5; y_ctrl := Some 5 |} ]
                  [ {| index := 2; x_ctrl := None; y_ctrl := Some 75 |} ]
                  {| index := 1; x_ctrl := Some 95; y_ctrl := None |}
                  eq_refl eq_refl eq_refl eq_refl eq_refl eq_refl Hgood eq_refl)
           Hnum).
Defined.

(** X13.  When every text converts, the range tests are made in a fixed
    order and the first that fails decides the error: non-positive width or
    height, then negative radius, then radius above half the smaller side,
    then non-positive hole diameter. *)
Theorem range_errors_in_order (dlg : BoardOutlineDialog) (w h r d a : R)
    (positions : list point) :
  width_ctrl dlg = Some w -> height_ctrl dlg = Some h ->
  radius_ctrl dlg = Some r -> hole_diameter_ctrl dlg = Some d ->
  annular_ring_ctrl dlg = Some a ->
  collect_positions (hole_entries dlg) [] = inr positions ->
  (get_parameters_try dlg = inl DimensionsNotPositive <-> w <= 0 \/ h <= 0) /\
  (get_parameters_try dlg = inl RadiusNegative <-> 0 < w /\ 0 < h /\ r < 0) /\
  (get_parameters_try dlg = inl RadiusTooLarge <->
   0 < w /\ 0 < h /\ 0 <= r /\ Rmin w h / 2 < r) /\
  (get_parameters_try dlg = inl HoleDiameterNotPositive <->
   0 < w /\ 0 < h /\ 0 <= r <= Rmin w h / 2 /\ d <= 0).
Proof.
  intros Hw Hh Hr Hd Ha Hps.
  unfold get_parameters_try. rewrite Hw, Hh, Hr, Hd, Ha. cbn [float bind ret].
  rewrite Hps. cbn [bind].
  unfold Rleb, Rltb, Rgtb.
  destruct (Rle_dec w 0) as [Hw0 | Hw0]; cbn [orb].
  { repeat split; intros; try discriminate; try tauto; lra. }
  destruct (Rle_dec h 0) as [Hh0 | Hh0].
  { repeat split; intros; try discriminate; try tauto; lra. }
  destruct (Rlt_dec r 0) as [Hr0 | Hr0].
  { repeat split; intros; try discriminate; try tauto; lra. }
  destruct (Rgt_dec r (Rmin w h / 2)) as [Hr1 | Hr1].
  { repeat split; intros; try discriminate; try tauto; lra. }
  destruct (Rle_dec d 0) as [Hd0 | Hd0].
  { repeat split; intros; try discriminate; try tauto; lra. }
  repeat split; intros; try discriminate; try tauto; lra.
Qed.

Lemma range_errors_in_order_witness :
  get_parameters_try
    {| width_ctrl := Some 100; height_ctrl := Some 80; radius_ctrl := Some 41;
       hole_diameter_ctrl := Some 0; annular_ring_ctrl := Some 1.0;
       hole_entries := [] |} = inl RadiusTooLarge.
Proof.
  apply (proj1 (proj2 (proj2
    (range_errors_in_order
       {| width_ctrl := Some 100; height_ctrl := Some 80; radius_ctrl := Some 41;
          hole_diameter_ctrl := Some 0; annular_ring_ctrl := Some 1.0;
          hole_entries := [] |} 100 80 41 0 1.0 []
       eq_refl eq_refl eq_refl eq_refl eq_refl eq_refl)))).
  rewrite Rmin_100_80. lra.
Defined.

(** X14.  Validation puts no bound on the annular ring or on the hole
    positions: a dialog that is accepted stays accepted when the annular ring
    and the holes are replaced by any numbers whatever (negative, or off the
    board), and the parameter set changes in those two fields only. *)
Theorem holes_and_ring_are_not_range_checked (dlg : BoardOutlineDialog)
    (params : Params) (a : R) (entries : list MountingHoleEntry)
    (positions : list point) :
  get_parameters dlg = Some params ->
  map entry_texts entries = map position_texts positions ->
  get_parameters
    {| width_ctrl := width_ctrl dlg; height_ctrl := height_ctrl dlg;
       radius_ctrl := radius_ctrl dlg;
       hole_diameter_ctrl := hole_diameter_ctrl dlg;
       annular_ring_ctrl := Some a; hole_entries := entries |} =
  Some (with_annular_ring a (with_hole_positions positions params)).
Proof.
  intros Hp Hentries.
  apply get_parameters_some in Hp.
  destruct Hp as [(Hw & Hh & Hr & Hd & _ & _) Hrange].
  apply get_parameters_some. split; [| exact Hrange].
  repeat split; assumption.
Qed.

Lemma holes_and_ring_are_not_range_checked_witness :
  get_parameters sample_dialog = Some sample_params /\
  get_parameters
    {| width_ctrl := width_ctrl sample_dialog;
       height_ctrl := height_ctrl sample_dialog;
       radius_ctrl := radius_ctrl sample_dialog;
       hole_diameter_ctrl := hole_diameter_ctrl sample_dialog;
       annular_ring_ctrl := Some (-2);
       hole_entries := [ {| index := 0; x_ctrl := Some (-50);
                            y_ctrl := Some 1000 |} ] |} =
  Some (with_annular_ring (-2)
          (with_hole_positions [(-50, 1000)] sample_params)).
Proof.
  exact (conj sample_dialog_accepted
           (holes_and_ring_are_not_range_checked sample_dialog sample_params (-2)
              [ {| index := 0; x_ctrl := Some (-50); y_ctrl := Some 1000 |} ]
              [(-50, 1000)] sample_dialog_accepted eq_refl)).
Defined.

(** ** The handlers of the dialog *)

Lemma dict_get_not_key (key : string) (d : list (string * R)) :
  ~ In key (dict_keys d) -> dict_get key d = None.
Proof.
  induction d as [| [k v] d IH]; intros Hnot; [reflexivity |].
  cbn [dict_get]. destruct (String.eqb_spec key k) as [-> | Hne].
  - exfalso. apply Hnot. now left.
  - apply IH. intros Hin. apply Hnot. now right.
Qed.

(** Every fastener of the table is found with its own diameter, and that
    diameter is positive. *)
Lemma CLEARANCE_HOLES_get (name : string) (diameter : R) :
  In (name, diameter) CLEARANCE_HOLES ->
  dict_get name CLEARANCE_HOLES = Some diameter /\ 0 < diameter.
Proof.
  unfold CLEARANCE_HOLES. cbn [In].
  intros H.
  repeat (destruct H as [H | H];
          [injection H as <- <-; split; [reflexivity | lra] |]).
  contradiction.
Qed.

(** X15.  Choosing a fastener of the preset table puts its clearance
    diameter, a positive number, into the hole-diameter text and touches no
    other control; a dialog that was accepted before is accepted after, with
    that diameter as its hole diameter. *)
Theorem preset_sets_clearance_diameter (self : DialogWindow) (name : string)
    (diameter : R) :
  In (name, diameter) CLEARANCE_HOLES ->
  preset_choice self = name ->
  let self' := _on_preset_changed self in
  hole_diameter_ctrl (controls self') = Some diameter /\
  0 < diameter /\
  set_hole_diameter_ctrl (hole_diameter_ctrl (controls self)) (controls self') =
    controls self /\
  preset_choice self' = preset_choice self /\
  inset_ctrl self' = inset_ctrl self /\
  (forall params,
     get_parameters (controls self) = Some params ->
     get_parameters (controls self') = Some (with_hole_diameter diameter params)).
Proof.
  intros Hin Hname self'.
  destruct (CLEARANCE_HOLES_get name diameter Hin) as [Hget Hpos].
  unfold self', _on_preset_changed. rewrite Hname, Hget.
  cbn [controls preset_choice inset_ctrl set_controls set_hole_diameter_ctrl
       hole_diameter_ctrl width_ctrl height_ctrl radius_ctrl annular_ring_ctrl
       hole_entries SetValue_str].
  split; [reflexivity |]. split; [exact Hpos |].
  split; [now destruct (controls self) |].
  split; [exact Hname |]. split; [reflexivity |].
  intros params Hp.
  apply get_parameters_some in Hp.
  destruct Hp as [(Hw & Hh & Hr & _ & Ha & Hps) (Hw0 & Hh0 & Hr0 & _)].
  apply get_parameters_some.
  unfold collected, in_range, with_hole_diameter.
  cbn [width height corner_radius hole_diameter annular_ring hole_positions
       hole_diameter_ctrl width_ctrl height_ctrl radius_ctrl annular_ring_ctrl
       hole_entries].
  repeat split; try assumption; lra.
Qed.

Lemma preset_sets_clearance_diameter_witness :
  In ("M4"%string, 4.5) CLEARANCE_HOLES /\
  hole_diameter_ctrl (controls (_on_preset_changed sample_window)) = Some 4.5 /\
  get_parameters (controls (_on_preset_changed sample_window)) =
    Some (with_hole_diameter 4.5 sample_params).
Proof.
  assert (Hin : In ("M4"%string, 4.5) CLEARANCE_HOLES).
  { unfold CLEARANCE_HOLES. cbn [In]. do 3 right. now left. }
  destruct (preset_sets_clearance_diameter sample_window "M4" 4.5 Hin eq_refl)
    as (Hd & _ & _ & _ & _ & Hacc).
  exact (conj Hin (conj Hd (Hacc sample_params sample_dialog_accepted))).
Defined.

(** X16.  A selection that is no fastener of the table, such as Custom,
    changes nothing in the dialog: what the user typed as hole diameter
    stays. *)
Theorem other_selection_keeps_dialog (self : DialogWindow) :
  ~ In (preset_choice self) (dict_keys CLEARANCE_HOLES) ->
  _on_preset_changed self = self.
Proof.
  intros Hnot. unfold _on_preset_changed.
  now rewrite (dict_get_not_key _ _ Hnot).
Qed.

Lemma Custom_is_no_fastener : ~ In "Custom"%string (dict_keys CLEARANCE_HOLES).
Proof.
  unfold dict_keys, CLEARANCE_HOLES. cbn [map fst In].
  intros H. repeat (destruct H as [H | H]; [discriminate |]). contradiction.
Qed.

Lemma other_selection_keeps_dialog_witness :
  ~ In (preset_choice new_BoardOutlineDialog) (dict_keys CLEARANCE_HOLES) /\
  _on_preset_changed new_BoardOutlineDialog = new_BoardOutlineDialog.
Proof.
  exact (conj Custom_is_no_fastener
           (other_selection_keeps_dialog new_BoardOutlineDialog
              Custom_is_no_fastener)).
Defined.

Lemma well_numbered_app_entry (entries : list MountingHoleEntry) (x y : TextCtrl) :
  well_numbered entries ->
  well_numbered
    (entries ++ [ {| index := List.length entries; x_ctrl := x; y_ctrl := y |} ]).
Proof.
  unfold well_numbered. intros H.
  rewrite map_app, length_app, H. cbn [map List.length index].
  now rewrite seq_app.
Qed.

Lemma renumber_index (entries : list MountingHoleEntry) :
  forall i, map index (renumber i entries) = seq i (List.length entries).
Proof.
  induction entries as [| e rest IH]; intros i; [reflexivity |].
  cbn [renumber map List.length seq index]. f_equal.
  rewrite IH. f_equal. lia.
Qed.

Lemma renumber_length (entries : list MountingHoleEntry) :
  forall i, List.length (renumber i entries) = List.length entries.
Proof.
  induction entries as [| e rest IH]; intros i; [reflexivity |].
  cbn [renumber List.length]. now rewrite IH.
Qed.

Lemma renumber_texts (entries : list MountingHoleEntry) :
  forall i, map entry_texts (renumber i entries) = map entry_texts entries.
Proof.
  induction entries as [| e rest IH]; intros i; [reflexivity |].
  cbn [renumber map]. now rewrite IH.
Qed.

Lemma renumber_well_numbered (entries : list MountingHoleEntry) :
  forall i, map index entries = seq i (List.length entries) ->
            renumber i entries = entries.
Proof.
  induction entries as [| e rest IH]; intros i H; [reflexivity |].
  cbn [map List.length seq] in H. injection H as Hi Hrest.
  cbn [renumber]. rewrite IH by (rewrite Hrest; f_equal; lia).
  destruct e as [n x y]. cbn in *. now subst n.
Qed.

Lemma list_remove_spec (entries : list MountingHoleEntry) :
  forall k,
    (k < List.length entries)%nat ->
    list_remove k entries = Some (firstn k entries ++ skipn (S k) entries).
Proof.
  induction entries as [| e rest IH]; intros k Hk; [cbn in Hk; lia |].
  destruct k as [| k]; [reflexivity |].
  cbn [list_remove]. rewrite IH by (cbn in Hk; lia). reflexivity.
Qed.

Lemma list_remove_none (entries : list MountingHoleEntry) :
  forall k, (List.length entries <= k)%nat -> list_remove k entries = None.
Proof.
  induction entries as [| e rest IH]; intros k Hk; [now destruct k |].
  destruct k as [| k]; [cbn in Hk; lia |].
  cbn [list_remove]. rewrite IH by (cbn in Hk; lia). reflexivity.
Qed.

Lemma list_remove_last (entries : list MountingHoleEntry) (e : MountingHoleEntry) :
  list_remove (List.length entries) (entries ++ [e]) = Some entries.
Proof.
  induction entries as [| e' rest IH]; [reflexivity |].
  cbn [List.length app list_remove]. now rewrite IH.
Qed.

(** X17.  Adding a hole entry at [(x, y)] to an accepted dialog keeps it
    accepted, whatever the two numbers: the parameter set gains the position
    [(x, y)] as its last hole and is otherwise the same.  The Add Hole button
    does so with (3.5, 3.5). *)
Theorem added_hole_is_last_position (self : DialogWindow) (params : Params)
    (x y : R) :
  get_parameters (controls self) = Some params ->
  get_parameters (controls (_add_hole_entry self x y)) =
    Some (with_hole_positions (hole_positions params ++ [(x, y)]) params) /\
  get_parameters (controls (_on_add_hole self)) =
    Some (with_hole_positions (hole_positions params ++ [(3.5, 3.5)]) params).
Proof.
  intros Hp. apply get_parameters_some in Hp.
  destruct Hp as [(Hw & Hh & Hr & Hd & Ha & Hps) Hrange].
  assert (Hadd : forall x y,
    get_parameters (controls (_add_hole_entry self x y)) =
    Some (with_hole_positions (hole_positions params ++ [(x, y)]) params)).
  { intros x' y'. apply get_parameters_some. split; [| exact Hrange].
    unfold _add_hole_entry, collected. cbn.
    repeat split; try assumption.
    rewrite !map_app, Hps. reflexivity. }
  split; [apply Hadd | apply (Hadd 3.5 3.5)].
Qed.

Lemma added_hole_is_last_position_witness :
  get_parameters (controls sample_window) = Some sample_params /\
  get_parameters (controls (_on_add_hole sample_window)) =
    Some (with_hole_positions (hole_positions sample_params ++ [(3.5, 3.5)])
            sample_params).
Proof.
  exact (conj sample_dialog_accepted
           (proj2 (added_hole_is_last_position sample_window sample_params 0 0
                     sample_dialog_accepted))).
Defined.

(** X18.  Removing the entry at place [k] (there is one) leaves the other
    entries in their order with their texts, numbers them afresh 0, 1, 2, ...
    whatever their numbers were, and touches no other control. *)
Theorem remove_renumbers_the_rest (self : DialogWindow) (k : nat) :
  (k < List.length (hole_entries (controls self)))%nat ->
  exists self',
    _remove_hole_entry self k = Some self' /\
    map entry_texts (hole_entries (controls self')) =
      map entry_texts
        (firstn k (hole_entries (controls self)) ++
         skipn (S k) (hole_entries (controls self))) /\
    well_numbered (hole_entries (controls self')) /\
    set_hole_entries (hole_entries (controls self)) (controls self') =
      controls self /\
    preset_choice self' = preset_choice self /\
    inset_ctrl self' = inset_ctrl self.
Proof.
  intros Hk. unfold _remove_hole_entry.
  rewrite (list_remove_spec _ _ Hk).
  eexists. split; [reflexivity |].
  destruct self as [dlg choice inset]. destruct dlg as [w h r d a entries].
  cbn. repeat split.
  - apply renumber_texts.
  - unfold well_numbered. rewrite renumber_index, renumber_length. reflexivity.
Qed.

Lemma remove_renumbers_the_rest_witness :
  (0 < List.length (hole_entries (controls sample_window)))%nat /\
  exists self',
    _remove_hole_entry sample_window 0 = Some self' /\
    map entry_texts (hole_entries (controls self')) = [(Some 95, Some 75)] /\
    map index (hole_entries (controls self')) = [0%nat].
Proof.
  assert (Hk : (0 < List.length (hole_entries (controls sample_window)))%nat)
    by (cbn; lia).
  destruct (remove_renumbers_the_rest sample_window 0 Hk)
    as (self' & Hrem & Htexts & Hnum & _).
  refine (conj Hk (ex_intro _ self' (conj Hrem (conj Htexts _)))).
  unfold well_numbered in Hnum. rewrite Hnum.
  apply (f_equal (@List.length _)) in Htexts.
  rewrite length_map in Htexts. rewrite Htexts. reflexivity.
Defined.

(** X19.  Removing a hole from an accepted dialog keeps it accepted: the
    parameter set loses the position at that place and is otherwise the
    same. *)
Theorem removed_hole_leaves_positions (self self' : DialogWindow)
    (params : Params) (k : nat) :
  get_parameters (controls self) = Some params ->
  _remove_hole_entry self k = Some self' ->
  get_parameters (controls self') =
    Some (with_hole_positions
            (firstn k (hole_positions params) ++ skipn (S k) (hole_positions params))
            params).
Proof.
  intros Hp Hrem. apply get_parameters_some in Hp.
  destruct Hp as [(Hw & Hh & Hr & Hd & Ha & Hps) Hrange].
  unfold _remove_hole_entry in Hrem.
  destruct (Nat.lt_ge_cases k (List.length (hole_entries (controls self))))
    as [Hlt | Hge].
  - rewrite (list_remove_spec _ _ Hlt) in Hrem.
    remember (firstn k (hole_entries (controls self)) ++
              skipn (S k) (hole_entries (controls self))) as kept eqn:Hkept.
    injection Hrem as <-.
    apply get_parameters_some. split; [| exact Hrange].
    unfold collected, with_hole_positions.
    cbn [controls set_controls set_hole_entries width_ctrl height_ctrl
         radius_ctrl hole_diameter_ctrl annular_ring_ctrl hole_entries
         width height corner_radius hole_diameter annular_ring hole_positions].
    repeat split; try assumption.
    rewrite renumber_texts, Hkept, !map_app, <- !firstn_map, <- !skipn_map, Hps.
    reflexivity.
  - rewrite (list_remove_none _ _ Hge) in Hrem. discriminate.
Qed.

Lemma removed_hole_leaves_positions_witness :
  get_parameters (controls sample_window) = Some sample_params /\
  exists self',
    _remove_hole_entry sample_window 0 = Some self' /\
    get_parameters (controls self') =
      Some (with_hole_positions [(95, 75)] sample_params).
Proof.
  refine (conj sample_dialog_accepted (ex_intro _ _ (conj eq_refl _))).
  exact (removed_hole_leaves_positions sample_window _ sample_params 0
           sample_dialog_accepted eq_refl).
Defined.

(** X20.  Adding a hole and then removing it again (it is the last entry)
    gives back the dialog as it was, provided the entries were numbered in
    order. *)
Theorem add_then_remove_last (self : DialogWindow) (x y : R) :
  well_numbered (hole_entries (controls self)) ->
  _remove_hole_entry (_add_hole_entry self x y)
    (List.length (hole_entries (controls self))) = Some self.
Proof.
  intros Hnum. unfold _remove_hole_entry, _add_hole_entry.
  destruct self as [dlg choice inset]. destruct dlg as [w h r d a entries].
  cbn in *. rewrite list_remove_last.
  now rewrite (renumber_well_numbered entries 0 Hnum).
Qed.

Lemma add_then_remove_last_witness :
  well_numbered (hole_entries (controls sample_window)) /\
  _remove_hole_entry (_add_hole_entry sample_window 1 2) 2 = Some sample_window.
Proof.
  assert (H : well_numbered (hole_entries (controls sample_window)))
    by reflexivity.
  exact (conj H (add_then_remove_last sample_window 1 2 H)).
Defined.

Lemma _add_hole_entry_entries (self : DialogWindow) (x y : R) :
  hole_entries (controls (_add_hole_entry self x y)) =
  hole_entries (controls self) ++
  [ {| index := List.length (hole_entries (controls self));
       x_ctrl := Some x; y_ctrl := Some y |} ].
Proof. reflexivity. Qed.

Lemma _add_hole_entry_other_controls (self : DialogWindow) (x y : R) :
  set_hole_entries (hole_entries (controls self))
    (controls (_add_hole_entry self x y)) = controls self /\
  preset_choice (_add_hole_entry self x y) = preset_choice self /\
  inset_ctrl (_add_hole_entry self x y) = inset_ctrl self.
Proof. destruct self as [dlg choice inset]. now destruct dlg. Qed.

(** What [_on_add_corners] does when its three texts convert. *)
Lemma _on_add_corners_converted (self : DialogWindow) (w h inset : R) :
  width_ctrl (controls self) = Some w ->
  height_ctrl (controls self) = Some h ->
  inset_ctrl self = Some inset ->
  _on_add_corners self =
  _add_hole_entry
    (_add_hole_entry
       (_add_hole_entry (_add_hole_entry self inset inset) (w - inset) inset)
       inset (h - inset))
    (w - inset) (h - inset).
Proof.
  intros Hw Hh Hi. unfold _on_add_corners. rewrite Hw, Hh, Hi. reflexivity.
Qed.

(** X21.  When the width, the height and the corner inset convert, Add 4
    Corner Holes appends four entries after the ones already there: top-left
    [(inset, inset)], top-right [(w - inset, inset)], bottom-left
    [(inset, h - inset)] and bottom-right [(w - inset, h - inset)], numbered
    on from the length of the list.  No other control changes, and no range
    is checked: this holds for any three numbers. *)
Theorem add_corners_appends_four (self : DialogWindow) (w h inset : R) :
  width_ctrl (controls self) = Some w ->
  height_ctrl (controls self) = Some h ->
  inset_ctrl self = Some inset ->
  let old := hole_entries (controls self) in
  let self' := _on_add_corners self in
  exists added,
    hole_entries (controls self') = old ++ added /\
    map entry_texts added =
      map position_texts
        [ (inset, inset); (w - inset, inset);
          (inset, h - inset); (w - inset, h - inset) ] /\
    map index added = seq (List.length old) 4 /\
    set_hole_entries old (controls self') = controls self /\
    preset_choice self' = preset_choice self /\
    inset_ctrl self' = inset_ctrl self.
Proof.
  intros Hw Hh Hi old self'. unfold self'.
  rewrite (_on_add_corners_converted self w h inset Hw Hh Hi).
  rewrite !_add_hole_entry_entries, !length_app. cbn [List.length].
  eexists. split; [rewrite <- !app_assoc; reflexivity |].
  split; [reflexivity |].
  split; [cbn [app map index seq]; fold old; repeat f_equal; lia |].
  destruct self as [dlg choice inset']. now destruct dlg.
Qed.

Lemma add_corners_appends_four_witness :
  exists added,
    hole_entries (controls (_on_add_corners sample_window)) =
      hole_entries (controls sample_window) ++ added /\
    map entry_texts added =
      map position_texts
        [ (5.0, 5.0); (100 - 5.0, 5.0); (5.0, 80 - 5.0); (100 - 5.0, 80 - 5.0) ] /\
    map index added = [2; 3; 4; 5]%nat.
Proof.
  destruct (add_corners_appends_four sample_window 100 80 5.0
              eq_refl eq_refl eq_refl) as (added & H1 & H2 & H3 & _).
  exact (ex_intro _ added (conj H1 (conj H2 H3))).
Defined.

(** X22.  Add 4 Corner Holes on an accepted dialog whose inset converts
    keeps it accepted, whatever the inset: the parameter set gains the four
    corner positions, in the order top-left, top-right, bottom-left,
    bottom-right, after the holes it had. *)
Theorem add_corners_keeps_accepted (self : DialogWindow) (params : Params)
    (inset : R) :
  get_parameters (controls self) = Some params ->
  inset_ctrl self = Some inset ->
  get_parameters (controls (_on_add_corners self)) =
    Some (with_hole_positions
            (hole_positions params ++
             corner_holes (width params) (height params) inset) params).
Proof.
  intros Hp Hi. apply get_parameters_some in Hp.
  destruct Hp as [(Hw & Hh & Hr & Hd & Ha & Hps) Hrange].
  rewrite (_on_add_corners_converted self _ _ inset Hw Hh Hi).
  apply get_parameters_some. split; [| exact Hrange].
  unfold collected, with_hole_positions, corner_holes.
  rewrite !_add_hole_entry_entries.
  unfold _add_hole_entry.
  cbn [controls set_controls set_hole_entries width_ctrl height_ctrl
       radius_ctrl hole_diameter_ctrl annular_ring_ctrl hole_entries
       width height corner_radius hole_diameter annular_ring hole_positions].
  repeat split; try assumption.
  rewrite !map_app, Hps. cbn [map]. rewrite <- !app_assoc. reflexivity.
Qed.

Lemma add_corners_keeps_accepted_witness :
  get_parameters (controls sample_window) = Some sample_params /\
  get_parameters (controls (_on_add_corners sample_window)) =
    Some (with_hole_positions
            (hole_positions sample_params ++
             corner_holes (width sample_params) (height sample_params) 5.0)
            sample_params).
Proof.
  exact (conj sample_dialog_accepted
           (add_corners_keeps_accepted sample_window sample_params 5.0
              sample_dialog_accepted eq_refl)).
Defined.

(** X23.  When the width, the height or the corner inset does not convert,
    Add 4 Corner Holes changes nothing in the dialog. *)
Theorem add_corners_needs_numbers (self : DialogWindow) :
  width_ctrl (controls self) = None \/
  height_ctrl (controls self) = None \/
  inset_ctrl self = None ->
  _on_add_corners self = self.
Proof.
  intros H. unfold _on_add_corners.
  destruct (width_ctrl (controls self)) as [w |];
    destruct (height_ctrl (controls self)) as [h |];
    destruct (inset_ctrl self) as [i |]; try reflexivity.
  destruct H as [H | [H | H]]; discriminate.
Qed.

Lemma add_corners_needs_numbers_witness :
  _on_add_corners
    {| controls := bad_width_dialog; preset_choice := "Custom"%string;
       inset_ctrl := Some 5.0 |} =
  {| controls := bad_width_dialog; preset_choice := "Custom"%string;
     inset_ctrl := Some 5.0 |}.
Proof.
  exact (add_corners_needs_numbers
           {| controls := bad_width_dialog; preset_choice := "Custom"%string;
              inset_ctrl := Some 5.0 |} (or_introl eq_refl)).
Defined.

(** X24.  The four corner holes all lie on the board (exact arithmetic)
    exactly when the inset is between 0 and the width and between 0 and the
    height; the handler itself does not check this. *)
Theorem corner_holes_on_board_iff (w h inset : R) :
  Forall (on_board w h) (corner_holes w h inset) <->
  0 <= inset <= w /\ 0 <= inset <= h.
Proof.
  unfold corner_holes, on_board. split.
  - intros H. apply Forall_inv in H. cbn [fst snd] in H. exact H.
  - intros [Hw Hh].
    repeat apply Forall_cons; [.. | apply Forall_nil]; cbn [fst snd]; lra.
Qed.

(** X25.  After Clear All no hole is left: whatever the dialog held,
    [get_parameters] can no longer fail on a hole position, a parameter set
    it yields has no hole positions, and [Run] adds no footprint. *)
Theorem clear_leaves_no_holes (board : BOARD) (self : DialogWindow)
    (answer : wx.ModalResult) :
  let cleared := controls (_on_clear_holes self) in
  (forall n, get_parameters_try cleared <> inl (InvalidPosition n)) /\
  (forall params, get_parameters cleared = Some params -> hole_positions params = []) /\
  GetFootprints (Run board cleared answer) = GetFootprints board.
Proof.
  intros cleared.
  assert (Hnone : forall params,
            get_parameters cleared = Some params -> hole_positions params = []).
  { intros params Hp. apply get_parameters_some in Hp.
    destruct Hp as [(_ & _ & _ & _ & _ & Hps) _].
    unfold cleared in Hps. cbn in Hps.
    destruct (hole_positions params); [reflexivity | discriminate]. }
  split; [| split; [exact Hnone |]].
  - intros n. unfold cleared, get_parameters_try, _on_clear_holes.
    cbn [controls set_controls set_hole_entries width_ctrl height_ctrl
         radius_ctrl hole_diameter_ctrl annular_ring_ctrl hole_entries
         collect_positions].
    destruct (width_ctrl (controls self)) as [w |]; [| discriminate].
    destruct (height_ctrl (controls self)) as [h |]; [| discriminate].
    destruct (radius_ctrl (controls self)) as [r |]; [| discriminate].
    destruct (hole_diameter_ctrl (controls self)) as [d |]; [| discriminate].
    destruct (annular_ring_ctrl (controls self)) as [a |]; [| discriminate].
    cbn [float bind ret].
    destruct (Rleb w 0 || Rleb h 0); [discriminate |].
    destruct (Rltb r 0); [discriminate |].
    destruct (Rgtb r (Rmin w h / 2)); [discriminate |].
    destruct (Rleb d 0); discriminate.
  - destruct answer; [| reflexivity].
    destruct (get_parameters cleared) as [params |] eqn:Hp.
    + destruct (Run_accepted_Items board cleared params Hp)
        as (fps & Hitems & Hlen & _).
      rewrite (Hnone params eq_refl) in Hlen. destruct fps; [| discriminate].
      unfold GetFootprints. rewrite Hitems, !footprints_of_app.
      rewrite footprints_of_drawings. cbn. now rewrite app_nil_r.
    + unfold Run. now rewrite Hp.
Qed.

(** ** The numbering of the hole entries *)

Lemma _add_hole_entry_well_numbered (self : DialogWindow) (x y : R) :
  well_numbered (hole_entries (controls self)) ->
  well_numbered (hole_entries (controls (_add_hole_entry self x y))).
Proof.
  intros H. rewrite _add_hole_entry_entries. now apply well_numbered_app_entry.
Qed.

Lemma _on_add_corners_well_numbered (self : DialogWindow) :
  well_numbered (hole_entries (controls self)) ->
  well_numbered (hole_entries (controls (_on_add_corners self))).
Proof.
  intros H. unfold _on_add_corners.
  destruct (width <- float (width_ctrl (controls self)) ;;
            height <- float (height_ctrl (controls self)) ;;
            inset <- float (inset_ctrl self) ;;
            ret (width, height, inset)) as [e | [[w h] inset]]; [exact H |].
  cbn [corner_holes fold_left].
  now repeat apply _add_hole_entry_well_numbered.
Qed.

Lemma _on_preset_changed_entries (self : DialogWindow) :
  hole_entries (controls (_on_preset_changed self)) = hole_entries (controls self).
Proof.
  unfold _on_preset_changed.
  now destruct (dict_get (preset_choice self) CLEARANCE_HOLES).
Qed.

Lemma _remove_hole_entry_well_numbered (self self' : DialogWindow) (k : nat) :
  _remove_hole_entry self k = Some self' ->
  well_numbered (hole_entries (controls self')).
Proof.
  unfold _remove_hole_entry.
  destruct (list_remove k (hole_entries (controls self))) as [entries |];
    [| discriminate].
  intros H. injection H as <-. cbn.
  unfold well_numbered. now rewrite renumber_index, renumber_length.
Qed.

Lemma dialog_step_well_numbered (self self' : DialogWindow) :
  dialog_step self self' ->
  well_numbered (hole_entries (controls self)) ->
  well_numbered (hole_entries (controls self')).
Proof.
  intros Hstep Hnum. destruct Hstep as [self self' Hsame | self selection | self
                                       | self | self self' k Hrem | self].
  - unfold well_numbered in *. rewrite Hsame, Hnum. f_equal.
    apply (f_equal (@List.length _)) in Hsame.
    rewrite !length_map in Hsame. now symmetry.
  - rewrite _on_preset_changed_entries. exact Hnum.
  - now apply _add_hole_entry_well_numbered.
  - now apply _on_add_corners_well_numbered.
  - exact (_remove_hole_entry_well_numbered self self' k Hrem).
  - reflexivity.
Qed.

(** X26.  Whatever the user does with the open dialog (typing, choosing
    presets, adding holes or corner holes, removing holes, clearing), the
    hole entries stay numbered 0, 1, 2, ... in the order of the list; so the
    hole number in an invalid-position error is always the place of the
    entry, counted from 1. *)
Theorem reachable_dialog_is_well_numbered (self : DialogWindow) :
  reachable self ->
  well_numbered (hole_entries (controls self)).
Proof.
  intros Hreach. induction Hreach as [| self self' _ IH Hstep].
  - reflexivity.
  - exact (dialog_step_well_numbered self self' Hstep IH).
Qed.

Lemma reachable_dialog_is_well_numbered_witness :
  reachable (_on_add_corners (_on_add_hole new_BoardOutlineDialog)) /\
  well_numbered
    (hole_entries (controls (_on_add_corners (_on_add_hole new_BoardOutlineDialog)))).
Proof.
  assert (H : reachable (_on_add_corners (_on_add_hole new_BoardOutlineDialog))).
  { eapply reachable_step; [| apply step_add_corners].
    eapply reachable_step; [apply reachable_new | apply step_add_hole]. }
  exact (conj H (reachable_dialog_is_well_numbered _ H)).
Defined.
